(** * CEREM_ANO: span decoding and schema-driven extraction ([inference.py])

    A shallow embedding of [inference.py] and the properties its
    specification states about it.

    - Python [str] is a sequence of Unicode code points: [pystr].
    - Python [int] is unbounded: [Z]; list indexing and slicing follow
      Python's rules for negative and out-of-range positions.
    - Probabilities and the threshold are rationals; the code only
      compares them.
    - A tensor is the nested list of its values.  Moving a tensor to a
      device ([.to(device)], lines 43-45) is a call that may raise; the
      conversions of lines 48 and 53 ([.detach().cpu().tolist()]) keep
      the values.
    - Exceptions are an explicit error result; calls of the external
      collaborators (tokenizer, model) and [print] are recorded in a
      trace of events.
    - [modelv21_2] ([convert_inputs], [get_bool_ids_greater_than],
      [get_span]) is imported by [inference.py] but is not part of the
      sources: the functions of [inference.py] take these three as
      parameters, and module [Modelv21_2] gives the two that the
      specification describes. *)

From Equations Require Import Equations.
From Stdlib Require Import String Ascii.
From Stdlib Require Import List ZArith QArith Lia Bool Permutation.
Import Datatypes ListNotations.

Local Open Scope Z_scope.

(** ** Python values *)

(** A [str] is a sequence of code points; [len] counts code points. *)
Definition pychar := Z.
Definition pystr := list pychar.

Definition len {A} (l : list A) : Z := Z.of_nat (length l).

(** ASCII literals, for readable examples. *)
Fixpoint str (s : String.string) : pystr :=
  match s with
  | String.EmptyString => []
  | String.String c s' => Z.of_nat (Ascii.nat_of_ascii c) :: str s'
  end.

Definition pystr_eqb (a b : pystr) : bool :=
  if list_eq_dec Z.eq_dec a b then true else false.

(** Truthiness of a [str]: the empty string is false. *)
Definition truthy (s : pystr) : bool :=
  match s with [] => false | _ => true end.

(** Exceptions.  [IndexError], [KeyError] and [TypeError] are what the
    statements of [inference.py] themselves can raise; [ShapeError],
    [OffsetError] and [ConfigError] are the error kinds the specification
    names; [OtherError] is anything else a collaborator raises. *)
Inductive exn :=
| IndexError
| KeyError
| TypeError
| ShapeError
| OffsetError
| ConfigError
| OtherError (msg : String.string).

Inductive result (A : Type) :=
| Ok (a : A)
| Err (e : exn).
Arguments Ok {A} a.
Arguments Err {A} e.

Definition rbind {A B} (m : result A) (f : A -> result B) : result B :=
  match m with
  | Ok a => f a
  | Err e => Err e
  end.

Notation "'let?' x := m 'in' k" := (rbind m (fun x => k))
  (at level 10, x pattern, m at level 100, k at level 200).

(** [l[i]]: a negative index counts from the end, an index outside the
    list raises [IndexError]. *)
Definition py_index {A} (l : list A) (i : Z) : result A :=
  let j := if i <? 0 then i + len l else i in
  if j <? 0 then Err IndexError
  else match nth_error l (Z.to_nat j) with
       | Some x => Ok x
       | None => Err IndexError
       end.

(** A slice bound is clamped into [0, len]; a negative one counts from
    the end first. *)
Definition clamp (n i : Z) : Z :=
  if i <? 0 then Z.max (i + n) 0 else Z.min i n.

(** [s[a:b]]: never raises. *)
Definition py_slice {A} (s : list A) (a b : Z) : list A :=
  let lo := clamp (len s) a in
  let hi := clamp (len s) b in
  firstn (Z.to_nat (hi - lo)) (skipn (Z.to_nat lo) s).

(** [range(a, b)]. *)
Definition py_range (a b : Z) : list Z :=
  map (fun k => a + Z.of_nat k) (seq 0 (Z.to_nat (b - a))).

(** [zip] of five lists stops at the shortest. *)
Fixpoint zip5 {A B C D E} (la : list A) (lb : list B) (lc : list C)
  (ld : list D) (le : list E) : list (A * B * C * D * E) :=
  match la, lb, lc, ld, le with
  | a :: la', b :: lb', c :: lc', d :: ld', e :: le' =>
      (a, b, c, d, e) :: zip5 la' lb' lc' ld' le'
  | _, _, _, _, _ => []
  end.

(** A [dict] keeps its keys in insertion order; assigning to a key that
    is present replaces the value in place. *)
Definition dict (V : Type) := list (pystr * V).

Fixpoint dict_get {V} (d : dict V) (k : pystr) : option V :=
  match d with
  | [] => None
  | (k', v) :: d' => if pystr_eqb k' k then Some v else dict_get d' k
  end.

Fixpoint dict_set {V} (d : dict V) (k : pystr) (v : V) : dict V :=
  match d with
  | [] => [(k, v)]
  | (k', v') :: d' =>
      if pystr_eqb k' k then (k', v) :: d' else (k', v') :: dict_set d' k v
  end.

Definition keys {V} (d : dict V) : list pystr := map fst d.

(** ** The helpers of [modelv21_2] that the specification describes *)

Module Modelv21_2.

(** Modelled from the spec: the row-wise part of
    [get_bool_ids_greater_than] of [modelv21_2], which is not in the
    sources.  Section 4.1: the IndexSet of a row holds, in ascending
    order, every position whose probability is strictly greater than
    the threshold. *)
Fixpoint ids_greater_than (row : list Q) (limit : Q) (i : Z) : list Z :=
  match row with
  | [] => []
  | p :: row' =>
      if Qle_bool p limit then ids_greater_than row' limit (i + 1)
      else i :: ids_greater_than row' limit (i + 1)
  end.

(** Modelled from the spec: the shape test of
    [get_bool_ids_greater_than], which is not in the sources.  Section
    4.1: malformed input is a table that is not rectangular. *)
Definition rectangular (probs : list (list Q)) : bool :=
  match probs with
  | [] => true
  | r :: rows => forallb (fun r' => Nat.eqb (length r') (length r)) rows
  end.

(** Modelled from the spec: [get_bool_ids_greater_than] of [modelv21_2]
    is not in the sources.  Section 4.1: one IndexSet per row; a table
    that is not rectangular is a [ShapeError]. *)
Definition get_bool_ids_greater_than (probs : list (list Q)) (limit : Q)
  : result (list (list Z)) :=
  if rectangular probs
  then Ok (map (fun row => ids_greater_than row limit 0) probs)
  else Err ShapeError.

(** Modelled from the spec: [get_span] of [modelv21_2] is not in the
    sources.  This follows the three cursor clauses of section 4.2: two
    cursors, one into the starts and one into the ends, both beginning
    at the front; on [s = e] emit [(s, e)] and advance both, on [s < e]
    emit [(s, e)] and advance the start cursor only, on [s > e] advance
    the end cursor only; stop when either cursor runs out.  A cursor is
    the part of its list not yet passed; the spans are listed in
    emission order.  It stands in for the assembler when the functions
    of [inference.py] are run on examples; what is proved of these
    functions holds for every assembler. *)
Equations? get_span (starts ends : list Z) : list (Z * Z)
  by wf (length starts + length ends)%nat lt :=
  get_span [] _ := [];
  get_span _ [] := [];
  get_span (s :: starts') (e :: ends') with Z.compare s e => {
    | Eq := (s, e) :: get_span starts' ends';
    | Lt := (s, e) :: get_span starts' (e :: ends');
    | Gt := get_span (s :: starts') ends' }.
Proof. all: simpl; lia. Qed.

End Modelv21_2.

(** ** Effects: collaborator calls and [print] *)

Definition table := list (list Q).

(** What [convert_inputs] returns: the tensors of the batch, one row per
    pair, and the offset table of each pair. *)
Record encoded := {
  input_ids : list (list Z);
  token_type_ids : list (list Z);
  attention_mask : list (list Z);
  offset_mapping : list (list (Z * Z))
}.

(** The keyword arguments of the model call. *)
Record model_inputs := {
  mi_input_ids : list (list Z);
  mi_token_type_ids : list (list Z);
  mi_attention_mask : list (list Z)
}.

(** The model: two tables, start and end probabilities, or an
    exception. *)
Definition model := model_inputs -> result (table * table).

Definition flat_result := dict (list pystr).
Definition nested_result := dict (dict (list pystr)).

Inductive printed :=
| PFlat (rsp : flat_result)
| PNested (rsp : nested_result).

(** What a function hands back to its caller. *)
Inductive returned (A : Type) :=
| ReturnsNone
| Returns (a : A).
Arguments ReturnsNone {A}.
Arguments Returns {A} a.

Inductive event :=
| Encode (prompts contents : list pystr) (max_length : Z)
| Invoke (inputs : model_inputs)
| Print (label : String.string) (value : printed).

(** A computation: its outcome and the events it caused, oldest first.
    An exception ends the computation and keeps the events so far. *)
Definition M (A : Type) := (result A * list event)%type.

Definition ret {A} (a : A) : M A := (Ok a, []).

Definition bind {A B} (m : M A) (f : A -> M B) : M B :=
  match m with
  | (Ok a, t) => let '(r, t') := f a in (r, t ++ t')
  | (Err e, t) => (Err e, t)
  end.

Definition lift {A} (r : result A) : M A := (r, []).

(** A call that is recorded: the event, then the call's outcome. *)
Definition call {A} (ev : event) (r : result A) : M A := (r, [ev]).

Notation "x <- m ;; k" := (bind m (fun x => k))
  (at level 61, m at next level, right associativity).
Notation "' pat <- m ;; k" :=
  (bind m (fun x => match x with pat => k end))
  (at level 61, pat pattern, m at next level, right associativity).

Definition outcome {A} (m : M A) : result A := fst m.
Definition trace {A} (m : M A) : list event := snd m.

(** [for x in l: body], threading the variables the body assigns. *)
Fixpoint for_r {A S} (l : list A) (body : A -> S -> result S) (s : S)
  : result S :=
  match l with
  | [] => Ok s
  | x :: l' => let? s' := body x s in for_r l' body s'
  end.

Fixpoint for_ {A S} (l : list A) (body : A -> S -> M S) (s : S) : M S :=
  match l with
  | [] => ret s
  | x :: l' => s' <- body x s ;; for_ l' body s'
  end.

(** The relational glue of the dependent prompts. *)
Definition de : pystr := [30340].

(** ** [inference.py] *)

Section Inference.

Variable tokenizer : Type.
Variable convert_inputs :
  tokenizer -> list pystr -> list pystr -> Z -> result encoded.
(** [tensor_to t device] is [t.to(device)]: the tensor on the device,
    or the exception of a device that cannot take it. *)
Variable tensor_to : list (list Z) -> string -> result (list (list Z)).
Variable get_bool_ids_greater_than : table -> Q -> result (list (list Z)).
Variable get_span : list Z -> list Z -> list (Z * Z).

(** Lines 66-67: [span_text += input_content[offset_map[s][0]: offset_map[s][1]]]. *)
Definition span_text_step (input_content : pystr) (offset_map : list (Z * Z))
  (s : Z) (span_text : pystr) : result pystr :=
  let? entry := py_index offset_map s in
  Ok (span_text ++ py_slice input_content (fst entry) (snd entry)).

(** Lines 64-67: the text of one span, cut back out of
    [input_content] token by token. *)
Definition span_text (input_content : pystr) (offset_map : list (Z * Z))
  (span : Z * Z) : result pystr :=
  let span_text := [] in
  for_r (py_range (fst span) (snd span + 1))
        (span_text_step input_content offset_map) span_text.

(** Lines 61-68: the body of [for span in span_set]. *)
Definition decode_span (prompt content : pystr) (offset_map : list (Z * Z))
  (span : Z * Z) (current_span_list : list pystr) : result (list pystr) :=
  if fst span <? len prompt + 2 then Ok current_span_list
  else
    let input_content := prompt ++ content in
    let? span_text := span_text input_content offset_map span in
    Ok (current_span_list ++ [span_text]).

(** Lines 60-68: the span decoder of one pair. *)
Definition decode_spans (prompt content : pystr) (offset_map : list (Z * Z))
  (span_set : list (Z * Z)) : result (list pystr) :=
  let current_span_list := [] in
  for_r span_set (decode_span prompt content offset_map) current_span_list.

(** Lines 54-69: the body of the loop over the rows of the batch. *)
Definition decode_row
  (row : list Z * list Z * pystr * pystr * list (Z * Z))
  (res : list (list pystr)) : result (list (list pystr)) :=
  let '(start_ids, end_ids, prompt, content, offset_map) := row in
  let span_set := get_span start_ids end_ids in
  let? current_span_list := decode_spans prompt content offset_map span_set in
  Ok (res ++ [current_span_list]).

Definition inference (model_ : model) (tokenizer_ : tokenizer)
  (device : String.string) (contents prompts : list pystr)
  (max_length : Z) (prob_threshold : Q) : M (list (list pystr)) :=
  inputs <- call (Encode prompts contents max_length)
                 (convert_inputs tokenizer_ prompts contents max_length) ;;
  input_ids_ <- lift (tensor_to (input_ids inputs) device) ;;
  token_type_ids_ <- lift (tensor_to (token_type_ids inputs) device) ;;
  attention_mask_ <- lift (tensor_to (attention_mask inputs) device) ;;
  let model_inputs_ := {|
    mi_input_ids := input_ids_;
    mi_token_type_ids := token_type_ids_;
    mi_attention_mask := attention_mask_ |} in
  '(output_sp, output_ep) <- call (Invoke model_inputs_) (model_ model_inputs_) ;;
  start_ids_list <- lift (get_bool_ids_greater_than output_sp prob_threshold) ;;
  end_ids_list <- lift (get_bool_ids_greater_than output_ep prob_threshold) ;;
  let res := [] in
  let offset_mapping_ := offset_mapping inputs in
  lift (for_r (zip5 start_ids_list end_ids_list prompts contents offset_mapping_)
              decode_row res).

(** [schema.get(key)] and the use of its value as a list. *)
Definition schema_get (schema : dict (list pystr)) (key : pystr)
  : result (list pystr) :=
  match dict_get schema key with
  | Some l => Ok l
  | None => Err TypeError
  end.

(** [rsp[key][a] = r]. *)
Definition set_inner (key : pystr) (ar : pystr * list pystr)
  (rsp : nested_result) : result nested_result :=
  match dict_get rsp key with
  | Some inner => Ok (dict_set rsp key (dict_set inner (fst ar) (snd ar)))
  | None => Err KeyError
  end.

(** Lines 118-132: the body of [for trigger in triggers]. *)
Definition event_trigger_body (model_ : model) (tokenizer_ : tokenizer)
  (device : string) (sentence : pystr) (schema : dict (list pystr))
  (prob_threshold : Q) (max_seq_len : Z) (trigger_prompt : pystr)
  (trigger : pystr) (rsp : nested_result) : M nested_result :=
  if truthy trigger then
    arguments <- lift (schema_get schema trigger_prompt) ;;
    let contents := repeat sentence (length arguments) in
    let prompts := map (fun a => trigger ++ de ++ a) arguments in
    res <- inference model_ tokenizer_ device
             contents prompts max_seq_len prob_threshold ;;
    lift (for_r (combine arguments res) (set_inner trigger_prompt) rsp)
  else ret rsp.

(** Lines 107-132: the body of [for trigger_prompt in trigger_prompts]. *)
Definition event_prompt_body (model_ : model) (tokenizer_ : tokenizer)
  (device : string) (sentence : pystr) (schema : dict (list pystr))
  (prob_threshold : Q) (max_seq_len : Z) (trigger_prompt : pystr)
  (rsp : nested_result) : M nested_result :=
  let rsp := dict_set rsp trigger_prompt [] in
  batch <- inference model_ tokenizer_ device
             [sentence] [trigger_prompt] 128 prob_threshold ;;
  triggers <- lift (py_index batch 0) ;;
  for_ triggers
       (event_trigger_body model_ tokenizer_ device sentence schema
          prob_threshold max_seq_len trigger_prompt) rsp.

Definition event_extract_example (model_ : model) (tokenizer_ : tokenizer)
  (device : string) (sentence : pystr) (schema : dict (list pystr))
  (prob_threshold : Q) (max_seq_len : Z) : M (returned nested_result) :=
  let rsp := [] in
  let trigger_prompts := keys schema in
  rsp <- for_ trigger_prompts
              (event_prompt_body model_ tokenizer_ device sentence schema
                 prob_threshold max_seq_len) rsp ;;
  _ <- call (Print "[+] Event-Extraction Results: " (PNested rsp)) (Ok tt) ;;
  ret ReturnsNone.

(** Lines 176-192: the body of [for subject in subjects]. *)
Definition information_subject_body (model_ : model)
  (tokenizer_ : tokenizer) (device : string) (sentence : pystr)
  (schema : dict (list pystr)) (prob_threshold : Q) (max_seq_len : Z)
  (subject_prompt : pystr) (subject : pystr) (rsp : nested_result)
  : M nested_result :=
  if truthy subject then
    let rsp := dict_set rsp subject [] in
    predicates <- lift (schema_get schema subject_prompt) ;;
    let contents := repeat sentence (length predicates) in
    let prompts := map (fun p => subject ++ de ++ p) predicates in
    res <- inference model_ tokenizer_ device
             contents prompts max_seq_len prob_threshold ;;
    lift (for_r (combine predicates res) (set_inner subject) rsp)
  else ret rsp.

(** Lines 166-192: the body of [for subject_prompt in subject_prompts]. *)
Definition information_prompt_body (model_ : model)
  (tokenizer_ : tokenizer) (device : string) (sentence : pystr)
  (schema : dict (list pystr)) (prob_threshold : Q) (max_seq_len : Z)
  (subject_prompt : pystr) (rsp : nested_result) : M nested_result :=
  batch <- inference model_ tokenizer_ device
             [sentence] [subject_prompt] 128 prob_threshold ;;
  subjects <- lift (py_index batch 0) ;;
  for_ subjects
       (information_subject_body model_ tokenizer_ device sentence schema
          prob_threshold max_seq_len subject_prompt) rsp.

Definition information_extract_example (model_ : model)
  (tokenizer_ : tokenizer) (device : string) (sentence : pystr)
  (schema : dict (list pystr)) (prob_threshold : Q) (max_seq_len : Z)
  : M (returned nested_result) :=
  let rsp := [] in
  let subject_prompts := keys schema in
  rsp <- for_ subject_prompts
              (information_prompt_body model_ tokenizer_ device sentence
                 schema prob_threshold max_seq_len) rsp ;;
  _ <- call (Print "[+] Information-Extraction Results: " (PNested rsp)) (Ok tt) ;;
  ret ReturnsNone.

Definition ner_example (model_ : model) (tokenizer_ : tokenizer)
  (device : String.string) (sentence : pystr) (schema : list pystr)
  (prob_threshold : Q) : M (returned flat_result) :=
  let rsp := [] in
  let sentences := repeat sentence (length schema) in
  res <- inference model_ tokenizer_ device
           sentences schema 128 prob_threshold ;;
  let rsp := fold_left (fun rsp sr => dict_set rsp (fst sr) (snd sr))
                       (combine schema res) rsp in
  _ <- call (Print "[+] NER Results: " (PFlat rsp)) (Ok tt) ;;
  ret ReturnsNone.

End Inference.

(** ** A character-level tokenizer and a table-driven model

    Concrete collaborators for running the functions above on examples.
    The tokenizer frames a pair as [CLS] prompt [SEP] content [SEP], one
    token per character, cut and padded to [max_length]; special and
    padding tokens have offset (0,0) and a character of the prompt or of
    the content has its position in [prompt + content].  The model reads
    its answer for a row of token ids from a table. *)

Module Toy.

Definition CLS : Z := 101.
Definition SEP : Z := 102.
Definition PAD : Z := 0.

Definition fit {A} (pad : A) (n : Z) (l : list A) : list A :=
  let l' := firstn (Z.to_nat n) l in
  l' ++ repeat pad (Z.to_nat n - length l').

Definition char_ids (s : pystr) : list Z := map (fun c => 1000 + c) s.

Definition char_offsets (from : Z) (s : pystr) : list (Z * Z) :=
  map (fun k => (from + Z.of_nat k, from + Z.of_nat k + 1)) (seq 0 (length s)).

Definition row_ids (max_length : Z) (prompt content : pystr) : list Z :=
  fit PAD max_length
      (CLS :: char_ids prompt ++ SEP :: char_ids content ++ [SEP]).

Definition row_types (max_length : Z) (prompt content : pystr) : list Z :=
  fit 0 max_length
      (0 :: map (fun _ => 0) prompt ++ 0 :: map (fun _ => 1) content ++ [1]).

Definition row_mask (max_length : Z) (prompt content : pystr) : list Z :=
  fit 0 max_length
      (1 :: map (fun _ => 1) prompt ++ 1 :: map (fun _ => 1) content ++ [1]).

Definition row_offsets (max_length : Z) (prompt content : pystr)
  : list (Z * Z) :=
  fit (0, 0) max_length
      ((0, 0) :: char_offsets 0 prompt
              ++ (0, 0) :: char_offsets (len prompt) content ++ [(0, 0)]).

Definition convert_inputs (_ : unit) (prompts contents : list pystr)
  (max_length : Z) : result encoded :=
  let pairs := combine prompts contents in
  Ok {| input_ids := map (fun pc => row_ids max_length (fst pc) (snd pc)) pairs;
        token_type_ids :=
          map (fun pc => row_types max_length (fst pc) (snd pc)) pairs;
        attention_mask :=
          map (fun pc => row_mask max_length (fst pc) (snd pc)) pairs;
        offset_mapping :=
          map (fun pc => row_offsets max_length (fst pc) (snd pc)) pairs |}.

(** Every device is usable: a tensor moved to it keeps its values. *)
Definition tensor_to (t : list (list Z)) (_ : string)
  : result (list (list Z)) := Ok t.

(** The answers of a model: for a row of token ids, the positions it
    marks as starts and as ends. *)
Definition gold := list (list Z * (list Z * list Z)).

Fixpoint answer (g : gold) (row : list Z) : list Z * list Z :=
  match g with
  | [] => ([], [])
  | (row', a) :: g' =>
      if list_eq_dec Z.eq_dec row' row then a else answer g' row
  end.

Definition mark (n : nat) (hot : list Z) : list Q :=
  map (fun i => if existsb (Z.eqb (Z.of_nat i)) hot then 9 # 10 else 1 # 10)
      (seq 0 n).

Definition model_of (g : gold) : model :=
  fun inputs =>
    let rows := mi_input_ids inputs in
    Ok (map (fun row => mark (length row) (fst (answer g row))) rows,
        map (fun row => mark (length row) (snd (answer g row))) rows).

(** The functions of [inference.py] over these collaborators and the
    helpers of [Modelv21_2]. *)
Definition inference :=
  inference unit convert_inputs tensor_to
            Modelv21_2.get_bool_ids_greater_than Modelv21_2.get_span.
Definition ner_example :=
  ner_example unit convert_inputs tensor_to
              Modelv21_2.get_bool_ids_greater_than Modelv21_2.get_span.
Definition event_extract_example :=
  event_extract_example unit convert_inputs tensor_to
    Modelv21_2.get_bool_ids_greater_than Modelv21_2.get_span.
Definition information_extract_example :=
  information_extract_example unit convert_inputs tensor_to
    Modelv21_2.get_bool_ids_greater_than Modelv21_2.get_span.

End Toy.

(** ** Vocabulary of the statements *)

(** Apply a fallible function to each element, in order; the first
    failure is the result. *)
Fixpoint rmapM {A B} (f : A -> result B) (l : list A) : result (list B) :=
  match l with
  | [] => Ok []
  | x :: l' => let? y := f x in let? ys := rmapM f l' in Ok (y :: ys)
  end.

(** A span survives the decoder's filter when it does not start inside
    the prompt region. *)
Definition kept (prompt : pystr) (span : Z * Z) : bool :=
  len prompt + 2 <=? fst span.

Definition slice_of (text : pystr) (entry : Z * Z) : pystr :=
  py_slice text (fst entry) (snd entry).

(** The offset table that maps token [i] to character [i]. *)
Definition identity_offsets (n : nat) : list (Z * Z) :=
  map (fun k => (Z.of_nat k, Z.of_nat k + 1)) (seq 0 n).

(** The calls of [convert_inputs] in a trace: prompts, contents and
    maximum length of each, oldest first.  Every call of [inference]
    begins with exactly one. *)
Definition encode_calls (t : list event)
  : list (list pystr * list pystr * Z) :=
  flat_map (fun ev => match ev with
                      | Encode p c m => [(p, c, m)]
                      | _ => []
                      end) t.

(** The number of model invocations in a trace. *)
Definition invocations (t : list event) : nat :=
  length (filter (fun ev => match ev with Invoke _ => true | _ => false end) t).

(** What a trace printed, oldest first. *)
Definition printed_values (t : list event) : list printed :=
  flat_map (fun ev => match ev with Print _ v => [v] | _ => [] end) t.

(** A computation runs as expected: if it ends normally its events are
    the expected ones and its value is as described; if it raises, its
    events are the expected ones up to where it stopped. *)
Definition runs_as {A} (m : M A) (expected : list event) (P : A -> Prop)
  : Prop :=
  match outcome m with
  | Ok a => trace m = expected /\ P a
  | Err _ => exists rest, expected = trace m ++ rest
  end.

(** The decoder applied to one row of the batch: its spans come from
    the assembler, its prompt, content and offset table are its own. *)
Definition decoded_row (get_span : list Z -> list Z -> list (Z * Z))
  (row : list Z * list Z * pystr * pystr * list (Z * Z))
  : result (list pystr) :=
  let '(start_ids, end_ids, prompt, content, offset_map) := row in
  decode_spans prompt content offset_map (get_span start_ids end_ids).

(** The keyword arguments that [inference] builds for the model call:
    the three tensors of the encoding, each moved to the device, in the
    order of lines 43-45.  A tensor that cannot be moved raises. *)
Definition moved_inputs
  (tensor_to : list (list Z) -> string -> result (list (list Z)))
  (device : string) (inputs : encoded) : result model_inputs :=
  let? input_ids_ := tensor_to (input_ids inputs) device in
  let? token_type_ids_ := tensor_to (token_type_ids inputs) device in
  let? attention_mask_ := tensor_to (attention_mask inputs) device in
  Ok {| mi_input_ids := input_ids_;
        mi_token_type_ids := token_type_ids_;
        mi_attention_mask := attention_mask_ |}.

(** What the model answers for an encoding: the model called on the
    tensors moved to the device (lines 43-47). *)
Definition model_answer
  (tensor_to : list (list Z) -> string -> result (list (list Z)))
  (model_ : model) (device : string) (inputs : encoded)
  : result (table * table) :=
  let? model_inputs_ := moved_inputs tensor_to device inputs in
  model_ model_inputs_.

(** Offset entries that follow one another without a gap, from
    character [start] to character [stop]: each entry begins where the
    one before it ends. *)
Fixpoint chained (start : Z) (entries : list (Z * Z)) (stop : Z) : Prop :=
  match entries with
  | [] => start = stop
  | entry :: rest =>
      fst entry = start /\ start <= snd entry /\ chained (snd entry) rest stop
  end.

(** An offset entry of a special or padding token. *)
Definition blank (entry : Z * Z) : bool :=
  (fst entry =? 0) && (snd entry =? 0).

(** The printing discipline of an entry point: a run that ends
    normally has printed one value, as its last event, and hands [None]
    back; a run that raises has printed nothing. *)
Definition prints_last_or_never {A} (m : M (returned A)) : Prop :=
  (forall r,
      outcome m = Ok r ->
      r = ReturnsNone /\
      exists t label v,
        trace m = t ++ [Print label v] /\ printed_values t = []) /\
  (forall e, outcome m = Err e -> printed_values (trace m) = []).

(** ** The two-level cascade, stage by stage *)

Section Cascade.

Variable tokenizer : Type.
Variable convert_inputs :
  tokenizer -> list pystr -> list pystr -> Z -> result encoded.
Variable tensor_to : list (list Z) -> string -> result (list (list Z)).
Variable get_bool_ids_greater_than : table -> Q -> result (list (list Z)).
Variable get_span : list Z -> list Z -> list (Z * Z).
Variable model_ : model.
Variable tok : tokenizer.
Variable device : string.
Variable sentence : pystr.
Variable schema : dict (list pystr).
Variable prob_threshold : Q.
Variable max_seq_len : Z.

(** What stage one extracts for a top-level prompt: the result of the
    one-pair call for that prompt on the sentence. *)
Definition stage_one (key : pystr) : result (list pystr) :=
  let? batch :=
    outcome (inference tokenizer convert_inputs tensor_to get_bool_ids_greater_than
               get_span model_ tok device [sentence] [key] 128
               prob_threshold) in
  py_index batch 0.

(** The instances of a top-level prompt that have dependents: the
    non-empty strings of stage one. *)
Definition instances (key : pystr) : list pystr :=
  match stage_one key with
  | Ok found => filter truthy found
  | Err _ => []
  end.

(** The dependent attribute names of a top-level prompt. *)
Definition dependents (key : pystr) : list pystr :=
  match dict_get schema key with
  | Some names => names
  | None => []
  end.

(** The dependent batch of an instance: one prompt per attribute, each
    paired with the sentence. *)
Definition dependent_prompts (key instance : pystr) : list pystr :=
  map (fun a => instance ++ de ++ a) (dependents key).

Definition dependent_contents (key : pystr) : list pystr :=
  repeat sentence (length (dependents key)).

(** What stage two extracts for an instance: attribute names paired
    with the results of the dependent batch. *)
Definition stage_two (key instance : pystr) : list (pystr * list pystr) :=
  match outcome (inference tokenizer convert_inputs tensor_to
                   get_bool_ids_greater_than get_span model_ tok device
                   (dependent_contents key) (dependent_prompts key instance)
                   max_seq_len prob_threshold) with
  | Ok res => combine (dependents key) res
  | Err _ => []
  end.

(** Assign the pairs to a mapping, in order. *)
Definition assign_all (d : flat_result) (pairs : list (pystr * list pystr))
  : flat_result :=
  fold_left (fun d ar => dict_set d (fst ar) (snd ar)) pairs d.

(** The events of one call of [inference]. *)
Definition call_trace (contents prompts : list pystr) (max_length : Z)
  : list event :=
  trace (inference tokenizer convert_inputs tensor_to get_bool_ids_greater_than
           get_span model_ tok device contents prompts max_length
           prob_threshold).

(** The events of the cascade for one top-level prompt: those of the
    stage-one call, then those of one dependent batch per instance. *)
Definition cascade_trace (key : pystr) : list event :=
  call_trace [sentence] [key] 128 ++
  flat_map (fun instance =>
              call_trace (dependent_contents key)
                         (dependent_prompts key instance) max_seq_len)
           (instances key).

(** The tokenizer calls of the cascade for one top-level prompt: the
    stage-one call, then one dependent batch per instance. *)
Definition cascade_calls (key : pystr)
  : list (list pystr * list pystr * Z) :=
  ([key], [sentence], 128) ::
  map (fun instance =>
         (dependent_prompts key instance, dependent_contents key,
          max_seq_len))
      (instances key).

(** The result that subject-to-predicate extraction builds: each
    instance is a key of its own, mapped to its own entries. *)
Definition subject_results : nested_result :=
  fold_left
    (fun rsp key =>
       fold_left
         (fun rsp instance =>
            dict_set rsp instance (assign_all [] (stage_two key instance)))
         (instances key) rsp)
    (keys schema) [].

(** The result that trigger-to-argument extraction builds: each
    top-level prompt is a key, mapped to the entries of all its
    instances, assigned one instance after the other. *)
Definition trigger_results : nested_result :=
  fold_left
    (fun rsp key =>
       dict_set rsp key
         (fold_left
            (fun inner instance => assign_all inner (stage_two key instance))
            (instances key) []))
    (keys schema) [].

End Cascade.

(** ** Example data *)

Module Examples.

(** A model that answers every batch with one row of four positions,
    marking position 3 as a start and as an end. *)
Definition one_row_model : model :=
  fun _ => Ok ([Toy.mark 4 [3]], [Toy.mark 4 [3]]).

(** A model whose start table has rows of unequal length. *)
Definition ragged_model : model :=
  fun _ => Ok ([Toy.mark 4 [3]; Toy.mark 3 [1]],
               [Toy.mark 4 [3]; Toy.mark 4 [1]]).

(** A model that answers every batch with no row at all. *)
Definition silent_model : model := fun _ => Ok ([], []).

(** A device that no tensor can be moved to. *)
Definition unusable_device (_ : list (list Z)) (_ : string)
  : result (list (list Z)) :=
  Err (OtherError "device").


(** On "red XL" the model finds "red" for "color" and "XL" for "size". *)
Definition wardrobe : Toy.gold :=
  [ (Toy.row_ids 128 (str "color") (str "red XL"), ([7], [9]));
    (Toy.row_ids 128 (str "size") (str "red XL"), ([10], [11])) ].

(** A sentence with two events; the model finds "fire" and "flood" for
    "event", and also marks the closing separator, which decodes to the
    empty string; it finds "noon" as the time of "fire" and "dusk" as the
    time of "flood". *)
Definition news : pystr := str "fire at noon, flood at dusk".

Definition newsroom : Toy.gold :=
  [ (Toy.row_ids 128 (str "event") news, ([7; 21; 34], [10; 25; 34]));
    (Toy.row_ids 64 (str "fire" ++ de ++ str "time") news, ([19], [22]));
    (Toy.row_ids 64 (str "flood" ++ de ++ str "time") news, ([35], [38])) ].

Definition news_schema : dict (list pystr) := [(str "event", [str "time"])].

End Examples.

(** ** Lists, slices and loops *)

Lemma rmapM_Forall2 {A B} (f : A -> result B) (l : list A) (out : list B) :
  rmapM f l = Ok out <-> Forall2 (fun x y => f x = Ok y) l out.
Proof.
  revert out. induction l as [|x l IH]; intros out; simpl.
  - split.
    + intros H. injection H as <-. constructor.
    + intros H. inversion H. reflexivity.
  - split.
    + destruct (f x) as [y|e] eqn:Hx; simpl; [|discriminate].
      destruct (rmapM f l) as [ys|e] eqn:Hl; simpl; [|discriminate].
      intros H. injection H as <-. constructor; [assumption|].
      apply IH. reflexivity.
    + intros H. inversion H as [|x' y l' ys Hx Hl]; subst.
      rewrite Hx. simpl. apply IH in Hl. rewrite Hl. reflexivity.
Qed.

Lemma rmapM_length {A B} (f : A -> result B) (l : list A) (out : list B) :
  rmapM f l = Ok out -> length out = length l.
Proof.
  intros H. apply rmapM_Forall2 in H.
  symmetry. eapply Forall2_length. eassumption.
Qed.

Lemma py_range_nil (a b : Z) : b <= a -> py_range a b = [].
Proof.
  intros H. unfold py_range.
  replace (Z.to_nat (b - a)) with 0%nat by lia. reflexivity.
Qed.

Lemma py_range_cons (a b : Z) :
  a < b -> py_range a b = a :: py_range (a + 1) b.
Proof.
  intros H. unfold py_range.
  replace (Z.to_nat (b - a)) with (S (Z.to_nat (b - (a + 1)))) by lia.
  simpl. f_equal; [lia|].
  rewrite <- seq_shift, map_map.
  apply map_ext. intros k. lia.
Qed.

Lemma py_range_In (a b i : Z) : In i (py_range a b) <-> a <= i < b.
Proof.
  unfold py_range. rewrite in_map_iff. split.
  - intros [k [<- Hk]]. apply in_seq in Hk. lia.
  - intros H. exists (Z.to_nat (i - a)). split; [lia|].
    apply in_seq. lia.
Qed.

Lemma firstn_plus {A} (m k : nat) (l : list A) :
  firstn (m + k) l = firstn m l ++ firstn k (skipn m l).
Proof.
  revert l. induction m as [|m IH]; intros l; simpl; [reflexivity|].
  destruct l as [|x l]; simpl.
  - rewrite firstn_nil. reflexivity.
  - rewrite IH. reflexivity.
Qed.

Lemma py_slice_inside {A} (s : list A) (a b : Z) :
  0 <= a <= b -> b <= len s ->
  py_slice s a b = firstn (Z.to_nat (b - a)) (skipn (Z.to_nat a) s).
Proof.
  intros Ha Hb. unfold py_slice, clamp.
  destruct (Z.ltb_spec a 0); [lia|].
  destruct (Z.ltb_spec b 0); [lia|].
  rewrite !Z.min_l by lia. reflexivity.
Qed.

Lemma py_slice_app {A} (s : list A) (a b c : Z) :
  0 <= a <= b -> b <= c -> c <= len s ->
  py_slice s a b ++ py_slice s b c = py_slice s a c.
Proof.
  intros Ha Hb Hc.
  rewrite !py_slice_inside by lia.
  replace (Z.to_nat (c - a)) with (Z.to_nat (b - a) + Z.to_nat (c - b))%nat
    by lia.
  rewrite firstn_plus, skipn_skipn.
  replace (Z.to_nat (b - a) + Z.to_nat a)%nat with (Z.to_nat b) by lia.
  reflexivity.
Qed.

Lemma py_slice_empty {A} (s : list A) (a : Z) : py_slice s a a = [].
Proof.
  unfold py_slice. rewrite Z.sub_diag. reflexivity.
Qed.

Lemma py_index_identity (n : nat) (i : Z) :
  0 <= i < Z.of_nat n -> py_index (identity_offsets n) i = Ok (i, i + 1).
Proof.
  intros H. unfold py_index, identity_offsets.
  destruct (Z.ltb_spec i 0); [lia|].
  destruct (Z.ltb_spec i 0); [lia|].
  rewrite nth_error_map, nth_error_seq.
  destruct (Nat.ltb_spec (Z.to_nat i) n); [|lia].
  simpl. rewrite Z2Nat.id by lia. reflexivity.
Qed.

Lemma py_index_error {A} (l : list A) (i : Z) (e : exn) :
  py_index l i = Err e -> e = IndexError.
Proof.
  unfold py_index.
  destruct (_ <? 0); [congruence|].
  destruct (nth_error _ _); congruence.
Qed.

(** The loop of lines 66-67 appends the slices of the entries it reads. *)
Lemma span_text_loop (text : pystr) (om : list (Z * Z)) (idxs : list Z)
  (acc : pystr) :
  for_r idxs (span_text_step text om) acc =
  let? entries := rmapM (py_index om) idxs in
  Ok (acc ++ concat (map (slice_of text) entries)).
Proof.
  revert acc. induction idxs as [|i idxs IH]; intros acc; simpl.
  - rewrite app_nil_r. reflexivity.
  - unfold span_text_step at 1.
    destruct (py_index om i) as [entry|e]; simpl; [|reflexivity].
    rewrite IH. destruct (rmapM (py_index om) idxs); simpl; [|reflexivity].
    rewrite <- app_assoc. reflexivity.
Qed.

(** The loop of lines 61-68 appends the texts of the spans it keeps. *)
Lemma decode_span_loop (prompt content : pystr) (om : list (Z * Z))
  (spans : list (Z * Z)) (acc : list pystr) :
  for_r spans (decode_span prompt content om) acc =
  let? texts := rmapM (span_text (prompt ++ content) om)
                      (filter (kept prompt) spans) in
  Ok (acc ++ texts).
Proof.
  revert acc. induction spans as [|span spans IH]; intros acc; simpl.
  - rewrite app_nil_r. reflexivity.
  - unfold decode_span at 1, kept at 1.
    destruct (Z.ltb_spec (fst span) (len prompt + 2));
      destruct (Z.leb_spec (len prompt + 2) (fst span)); try lia.
    + simpl. apply IH.
    + simpl.
      destruct (span_text (prompt ++ content) om span); simpl; [|reflexivity].
      rewrite IH. destruct (rmapM _ _); simpl; [|reflexivity].
      rewrite <- app_assoc. reflexivity.
Qed.

Lemma rmapM_total {A B} (f : A -> result B) (l : list A) :
  (forall x, In x l -> exists y, f x = Ok y) ->
  exists ys, rmapM f l = Ok ys.
Proof.
  induction l as [|x l IH]; intros H; simpl.
  - exists []. reflexivity.
  - destruct (H x (or_introl eq_refl)) as [y Hy]. rewrite Hy. simpl.
    destruct IH as [ys Hys].
    + intros x' Hx'. apply H. right. assumption.
    + rewrite Hys. simpl. exists (y :: ys). reflexivity.
Qed.

Lemma rmapM_failure {A B} (f : A -> result B) (l : list A) (e : exn) :
  rmapM f l = Err e -> exists x, In x l /\ f x = Err e.
Proof.
  induction l as [|x l IH]; simpl; [discriminate|].
  destruct (f x) as [y|e'] eqn:Hx; simpl.
  - destruct (rmapM f l) as [ys|e'] eqn:Hl; simpl; [discriminate|].
    intros H. injection H as ->.
    destruct IH as [x' [Hin Hx']]; [reflexivity|].
    exists x'. split; [right|]; assumption.
  - intros H. injection H as ->. exists x. split; [left; reflexivity|assumption].
Qed.

(** Decoding over the identity offset table, from token [s] on. *)
Lemma span_text_identity_from (text : pystr) (k : nat) :
  forall (s : Z) (acc : pystr),
    0 <= s -> s + Z.of_nat k <= len text ->
    for_r (py_range s (s + Z.of_nat k))
          (span_text_step text (identity_offsets (length text))) acc =
    Ok (acc ++ py_slice text s (s + Z.of_nat k)).
Proof.
  induction k as [|k IH]; intros s acc Hs Hk.
  - rewrite Z.add_0_r, py_range_nil, py_slice_empty, app_nil_r by lia.
    reflexivity.
  - rewrite py_range_cons by lia. simpl.
    unfold span_text_step at 1.
    rewrite py_index_identity by (unfold len in Hk; lia). simpl.
    replace (s + Z.pos (Pos.of_succ_nat k)) with (s + 1 + Z.of_nat k) by lia.
    rewrite IH by lia.
    rewrite <- app_assoc, py_slice_app by lia.
    reflexivity.
Qed.

(** ** The span decoder (section 4.3) *)

(** C3.  The decoder leaves a span out of its output exactly when the
    span's start index is strictly less than [len(prompt) + 2]: its
    outcome is the texts, in order, of the spans that are not; a span
    that starts at [len(prompt) + 2] is among them. *)
Theorem decoder_drops_prompt_spans (prompt content : pystr)
  (offset_map : list (Z * Z)) (span_set : list (Z * Z)) :
  decode_spans prompt content offset_map span_set =
  rmapM (span_text (prompt ++ content) offset_map)
        (filter (kept prompt) span_set) /\
  (forall span,
      In span (filter (kept prompt) span_set) <->
      In span span_set /\ ~ fst span < len prompt + 2) /\
  (forall e, kept prompt (len prompt + 2, e) = true).
Proof.
  split; [|split].
  - unfold decode_spans. rewrite decode_span_loop.
    destruct (rmapM _ _); reflexivity.
  - intros span. rewrite filter_In. unfold kept.
    rewrite Z.leb_le. split; intros [Hin H]; (split; [assumption|lia]).
  - intros e. unfold kept. simpl. apply Z.leb_refl.
Qed.

(** Scenario B of the specification: with a prompt of three characters
    the span (2, 4) is dropped and the span (5, 7) is decoded. *)
Lemma decoder_drops_prompt_spans_witness :
  decode_spans (str "abc") (str "defgh")
               (Toy.row_offsets 11 (str "abc") (str "defgh"))
               [(2, 4); (5, 7)] = Ok [str "def"] /\
  ~ In (2, 4) (filter (kept (str "abc")) [(2, 4); (5, 7)]) /\
  In (5, 7) (filter (kept (str "abc")) [(2, 4); (5, 7)]).
Proof.
  destruct (decoder_drops_prompt_spans (str "abc") (str "defgh")
              (Toy.row_offsets 11 (str "abc") (str "defgh"))
              [(2, 4); (5, 7)]) as [Heq [Hin _]].
  split; [rewrite Heq; reflexivity|].
  split.
  - intros H. apply Hin in H. destruct H as [_ H]. apply H.
    vm_compute. reflexivity.
  - apply Hin. split; [right; left; reflexivity|].
    vm_compute. discriminate.
Defined.

(** C4.  The text of a span is the concatenation, over the token
    indices from its start to its end inclusive, of the slices of
    [prompt + content] that the offset table gives for them, whenever
    the table has an entry for each of these indices.  Over the identity
    offset table of a text, the span from token [s] to token [e] decodes
    to the slice of the text from the start offset of [s] to the end
    offset of [e]. *)
Theorem span_text_is_concatenation (text : pystr) (offset_map : list (Z * Z))
  (s e : Z) :
  (forall entries,
      Forall2 (fun i entry => py_index offset_map i = Ok entry)
              (py_range s (e + 1)) entries ->
      span_text text offset_map (s, e) =
      Ok (concat (map (slice_of text) entries))) /\
  (offset_map = identity_offsets (length text) ->
   0 <= s <= e -> e < len text ->
   exists a b c d,
     py_index offset_map s = Ok (a, b) /\
     py_index offset_map e = Ok (c, d) /\
     span_text text offset_map (s, e) = Ok (py_slice text a d)).
Proof.
  split.
  - intros entries H. unfold span_text. simpl fst. simpl snd.
    rewrite span_text_loop. apply rmapM_Forall2 in H. rewrite H.
    reflexivity.
  - intros -> Hs He. unfold len in He.
    exists s, (s + 1), e, (e + 1).
    rewrite !py_index_identity by lia.
    split; [reflexivity|]. split; [reflexivity|].
    unfold span_text. simpl fst. simpl snd.
    replace (e + 1) with (s + Z.of_nat (Z.to_nat (e + 1 - s))) by lia.
    rewrite span_text_identity_from by (unfold len; lia).
    reflexivity.
Qed.

Lemma span_text_is_concatenation_witness :
  span_text (str "abcdef") [(0, 0); (0, 2); (2, 3); (3, 6)] (1, 2) =
  Ok (str "ab" ++ str "c") /\
  span_text (str "abcdef") (identity_offsets 6) (1, 3) = Ok (str "bcd").
Proof.
  split.
  - destruct (span_text_is_concatenation (str "abcdef")
                [(0, 0); (0, 2); (2, 3); (3, 6)] 1 2) as [H _].
    apply (H [(0, 2); (2, 3)]). repeat constructor.
  - destruct (span_text_is_concatenation (str "abcdef") (identity_offsets 6)
                1 3) as [_ H].
    destruct H as [a [b [c [d [Hs [He Htext]]]]]];
      [reflexivity | lia | vm_compute; reflexivity |].
    vm_compute in Hs, He.
    injection Hs as <- <-. injection He as <- <-.
    exact Htext.
Defined.




Lemma Forall2_zip5_nth {A B C D E R} (P : A * B * C * D * E -> R -> Prop)
  (da : A) (db : B) (dc : C) (dd : D) (de : E) (dr : R) :
  forall (la : list A) (lb : list B) (lc : list C) (ld : list D)
         (le : list E) (res : list R) (n : nat),
    length la = n -> length lb = n -> length lc = n -> length ld = n ->
    length le = n ->
    Forall2 P (zip5 la lb lc ld le) res <->
    length res = n /\
    forall k, (k < n)%nat ->
      P (nth k la da, nth k lb db, nth k lc dc, nth k ld dd, nth k le de)
        (nth k res dr).
Proof.
  induction la as [|a la IH];
    intros [|b lb] [|c lc] [|d ld] [|e le] res n Ha Hb Hc Hd He;
    simpl in *; subst; try discriminate.
  - split.
    + intros H. inversion H. split; [reflexivity|]. intros k Hk. lia.
    + intros [H _]. destruct res; [constructor|discriminate].
  - injection Hb as Hb. injection Hc as Hc. injection Hd as Hd.
    injection He as He.
    split.
    + intros H. inversion H as [|row r rows res' Hr Hres]; subst.
      apply (IH lb lc ld le res' (length la)) in Hres; try assumption;
        [|reflexivity].
      destruct Hres as [Hlen Hnth]. split; [simpl; congruence|].
      intros [|k] Hk; simpl; [assumption|]. apply Hnth. lia.
    + intros [Hlen Hnth]. destruct res as [|r res']; [discriminate|].
      constructor.
      * apply (Hnth 0%nat). lia.
      * apply (IH lb lc ld le res' (length la)); try assumption;
          [reflexivity|].
        split; [simpl in Hlen; congruence|].
        intros k Hk. apply (Hnth (S k)). lia.
Qed.

Lemma zip5_length {A B C D E} (la : list A) (lb : list B) (lc : list C)
  (ld : list D) (le : list E) :
  length (zip5 la lb lc ld le) =
  Nat.min (length la)
    (Nat.min (length lb)
       (Nat.min (length lc) (Nat.min (length ld) (length le)))).
Proof.
  revert lb lc ld le. induction la as [|a la IH];
    intros [|b lb] [|c lc] [|d ld] [|e le]; simpl; try lia.
  rewrite IH. reflexivity.
Qed.

Lemma span_text_failure (text : pystr) (om : list (Z * Z)) (span : Z * Z)
  (e : exn) :
  span_text text om span = Err e -> e = IndexError.
Proof.
  unfold span_text. rewrite span_text_loop.
  destruct (rmapM _ _) as [entries|e'] eqn:Hm; simpl; [discriminate|].
  intros H. injection H as ->.
  apply rmapM_failure in Hm. destruct Hm as [i [_ Hi]].
  eapply py_index_error. eassumption.
Qed.

Lemma decode_spans_failure (prompt content : pystr) (om : list (Z * Z))
  (spans : list (Z * Z)) (e : exn) :
  decode_spans prompt content om spans = Err e -> e = IndexError.
Proof.
  unfold decode_spans. rewrite decode_span_loop.
  destruct (rmapM _ _) as [texts|e'] eqn:Hm; simpl; [discriminate|].
  intros H. injection H as ->.
  apply rmapM_failure in Hm. destruct Hm as [span [_ Hs]].
  eapply span_text_failure. eassumption.
Qed.

(** Reordering the inputs reorders the outputs with them: each input
    keeps its own output. *)
Lemma rmapM_permutation {A B} (f : A -> result B) (l l' : list A) :
  Permutation l l' ->
  forall out,
    rmapM f l = Ok out ->
    exists out',
      rmapM f l' = Ok out' /\
      Permutation (combine l out) (combine l' out').
Proof.
  induction 1 as [|x l l' Hperm IH|x y l|l l' l'' H1 IH1 H2 IH2];
    intros out Hout; simpl in *.
  - exists []. split; [reflexivity|]. injection Hout as <-. constructor.
  - destruct (f x) as [b|e]; simpl in *; [|discriminate].
    destruct (rmapM f l) as [bs|e]; simpl in *; [|discriminate].
    injection Hout as <-.
    destruct (IH bs eq_refl) as [bs' [Hbs' Hp]].
    exists (b :: bs'). rewrite Hbs'. simpl.
    split; [reflexivity|]. constructor. exact Hp.
  - destruct (f y) as [b|e]; simpl in *; [|discriminate].
    destruct (f x) as [a|e]; simpl in *; [|discriminate].
    destruct (rmapM f l) as [bs|e]; simpl in *; [|discriminate].
    injection Hout as <-.
    exists (a :: b :: bs). split; [reflexivity|]. simpl. constructor.
  - destruct (IH1 out Hout) as [out' [Hout' Hp1]].
    destruct (IH2 out' Hout') as [out'' [Hout'' Hp2]].
    exists out''. split; [exact Hout''|].
    eapply Permutation_trans; eassumption.
Qed.

Lemma moved_inputs_failure
  (tensor_to : list (list Z) -> string -> result (list (list Z)))
  (device : string) (inputs : encoded) (e : exn) :
  moved_inputs tensor_to device inputs = Err e ->
  exists t, tensor_to t device = Err e.
Proof.
  unfold moved_inputs.
  destruct (tensor_to (input_ids inputs) device) as [ids|e1] eqn:H1; simpl.
  2: { intros H. exists (input_ids inputs). congruence. }
  destruct (tensor_to (token_type_ids inputs) device) as [types|e2] eqn:H2;
    simpl.
  2: { intros H. exists (token_type_ids inputs). congruence. }
  destruct (tensor_to (attention_mask inputs) device) as [mask|e3] eqn:H3;
    simpl; [discriminate|].
  intros H. exists (attention_mask inputs). congruence.
Qed.

Lemma model_answer_failure
  (tensor_to : list (list Z) -> string -> result (list (list Z)))
  (model_ : model) (device : string) (inputs : encoded) (e : exn) :
  model_answer tensor_to model_ device inputs = Err e ->
  (exists t, tensor_to t device = Err e) \/
  (exists model_inputs_,
      moved_inputs tensor_to device inputs = Ok model_inputs_ /\
      model_ model_inputs_ = Err e).
Proof.
  unfold model_answer.
  destruct (moved_inputs tensor_to device inputs) as [mi|e0] eqn:Hmoved;
    simpl.
  - intros H. right. exists mi. split; [reflexivity|exact H].
  - intros H. left. apply (moved_inputs_failure _ _ inputs).
    congruence.
Qed.

(** ** Single-prompt inference (section 4.4) *)

Section InferenceFacts.

Variable tokenizer : Type.
Variable convert_inputs :
  tokenizer -> list pystr -> list pystr -> Z -> result encoded.
Variable tensor_to : list (list Z) -> string -> result (list (list Z)).
Variable get_bool_ids_greater_than : table -> Q -> result (list (list Z)).
Variable get_span : list Z -> list Z -> list (Z * Z).

Local Abbreviation infer :=
  (inference tokenizer convert_inputs tensor_to get_bool_ids_greater_than get_span).

Lemma decode_row_loop (rows : list (list Z * list Z * pystr * pystr * list (Z * Z)))
  (acc : list (list pystr)) :
  for_r rows (decode_row get_span) acc =
  let? out := rmapM (decoded_row get_span) rows in Ok (acc ++ out).
Proof.
  revert acc. induction rows as [|row rows IH]; intros acc; simpl.
  - rewrite app_nil_r. reflexivity.
  - destruct row as [[[[start_ids end_ids] prompt] content] offset_map].
    simpl.
    destruct (decode_spans _ _ _ _); simpl; [|reflexivity].
    rewrite IH. destruct (rmapM _ _); simpl; [|reflexivity].
    rewrite <- app_assoc. reflexivity.
Qed.

(** The outcome of a call, collaborator by collaborator. *)
Lemma inference_outcome (model_ : model) (tok : tokenizer)
  (device : string) (contents prompts : list pystr) (max_length : Z)
  (prob_threshold : Q) :
  outcome (infer model_ tok device contents prompts max_length
                 prob_threshold) =
  let? inputs := convert_inputs tok prompts contents max_length in
  let? outputs := model_answer tensor_to model_ device inputs in
  let? start_ids_list :=
    get_bool_ids_greater_than (fst outputs) prob_threshold in
  let? end_ids_list :=
    get_bool_ids_greater_than (snd outputs) prob_threshold in
  rmapM (decoded_row get_span)
        (zip5 start_ids_list end_ids_list prompts contents
              (offset_mapping inputs)).
Proof.
  unfold inference, model_answer, moved_inputs, outcome, call, lift, bind.
  destruct (convert_inputs tok prompts contents max_length) as [inputs|e];
    simpl; [|reflexivity].
  destruct (tensor_to (input_ids inputs) device) as [ids|e];
    simpl; [|reflexivity].
  destruct (tensor_to (token_type_ids inputs) device) as [types|e];
    simpl; [|reflexivity].
  destruct (tensor_to (attention_mask inputs) device) as [mask|e];
    simpl; [|reflexivity].
  destruct (model_ _) as [[sp ep]|e]; simpl; [|reflexivity].
  destruct (get_bool_ids_greater_than sp prob_threshold) as [starts|e];
    simpl; [|reflexivity].
  destruct (get_bool_ids_greater_than ep prob_threshold) as [ends|e];
    simpl; [|reflexivity].
  rewrite decode_row_loop. destruct (rmapM _ _); reflexivity.
Qed.

(** The events of a call: the tokenizer call and, when the encoding and
    the move to the device succeed, the model invocation. *)
Lemma inference_trace (model_ : model) (tok : tokenizer)
  (device : string) (contents prompts : list pystr) (max_length : Z)
  (prob_threshold : Q) :
  trace (infer model_ tok device contents prompts max_length
               prob_threshold) =
  Encode prompts contents max_length ::
  match convert_inputs tok prompts contents max_length with
  | Ok inputs =>
      match moved_inputs tensor_to device inputs with
      | Ok model_inputs_ => [Invoke model_inputs_]
      | Err _ => []
      end
  | Err _ => []
  end.
Proof.
  unfold inference, moved_inputs, trace, call, lift, bind.
  destruct (convert_inputs tok prompts contents max_length) as [inputs|e];
    simpl; [|reflexivity].
  destruct (tensor_to (input_ids inputs) device) as [ids|e];
    simpl; [|reflexivity].
  destruct (tensor_to (token_type_ids inputs) device) as [types|e];
    simpl; [|reflexivity].
  destruct (tensor_to (attention_mask inputs) device) as [mask|e];
    simpl; [|reflexivity].
  destruct (model_ _) as [[sp ep]|e]; simpl; [|reflexivity].
  destruct (get_bool_ids_greater_than sp prob_threshold) as [starts|e];
    simpl; [|reflexivity].
  destruct (get_bool_ids_greater_than ep prob_threshold) as [ends|e];
    simpl; reflexivity.
Qed.

Lemma inference_encode_calls (model_ : model) (tok : tokenizer)
  (device : string) (contents prompts : list pystr) (max_length : Z)
  (prob_threshold : Q) :
  encode_calls (trace (infer model_ tok device contents prompts
                                 max_length prob_threshold)) =
  [(prompts, contents, max_length)].
Proof.
  rewrite inference_trace. simpl.
  destruct (convert_inputs _ _ _ _); [|reflexivity].
  destruct (moved_inputs _ _ _); reflexivity.
Qed.

(** C2, as amended.  [inference] validates neither the threshold nor
    the maximum length and has no [ConfigError] of its own.  Every call,
    whatever the two values, passes its prompts, contents and maximum
    length to the tokenizer, and invokes the model exactly once when the
    encoding and the move of its tensors to the device succeed.  A call
    ends in [ConfigError] only when one of the collaborators (tokenizer,
    move to the device, model, binarizer) raised it. *)
Theorem inference_validates_nothing (model_ : model) (tok : tokenizer)
  (device : string) (contents prompts : list pystr) (max_length : Z)
  (prob_threshold : Q) :
  encode_calls (trace (infer model_ tok device contents prompts max_length
                             prob_threshold)) =
  [(prompts, contents, max_length)] /\
  (forall inputs model_inputs_,
      convert_inputs tok prompts contents max_length = Ok inputs ->
      moved_inputs tensor_to device inputs = Ok model_inputs_ ->
      invocations (trace (infer model_ tok device contents prompts
                                max_length prob_threshold)) = 1%nat) /\
  (outcome (infer model_ tok device contents prompts max_length
                  prob_threshold) = Err ConfigError ->
   convert_inputs tok prompts contents max_length = Err ConfigError \/
   (exists t, tensor_to t device = Err ConfigError) \/
   (exists inputs model_inputs_,
       convert_inputs tok prompts contents max_length = Ok inputs /\
       moved_inputs tensor_to device inputs = Ok model_inputs_ /\
       model_ model_inputs_ = Err ConfigError) \/
   (exists probs,
       get_bool_ids_greater_than probs prob_threshold = Err ConfigError)).
Proof.
  split; [apply inference_encode_calls|]. split.
  - intros inputs mi Hc Hmoved.
    rewrite inference_trace, Hc, Hmoved. reflexivity.
  - rewrite inference_outcome.
    destruct (convert_inputs tok prompts contents max_length)
      as [inputs|e] eqn:Hc; cbn [rbind].
    2: { intros H. left. congruence. }
    destruct (model_answer tensor_to model_ device inputs)
      as [[sp ep]|e] eqn:Hm; cbn [rbind fst snd].
    2: { intros H. assert (e = ConfigError) by congruence. subst e.
         apply model_answer_failure in Hm.
         destruct Hm as [Hto | [mi [Hmoved Hmodel]]].
         - right. left. exact Hto.
         - right. right. left. exists inputs, mi.
           repeat split; assumption. }
    destruct (get_bool_ids_greater_than sp prob_threshold)
      as [starts|e] eqn:Hs; cbn [rbind].
    2: { intros H. right. right. right. exists sp. congruence. }
    destruct (get_bool_ids_greater_than ep prob_threshold)
      as [ends|e] eqn:He; cbn [rbind].
    2: { intros H. right. right. right. exists ep. congruence. }
    intros H. apply rmapM_failure in H.
    destruct H as [[[[[start_ids end_ids] prompt] content] om] [_ H]].
    simpl in H. apply decode_spans_failure in H. discriminate.
Qed.

(** C6.  With collaborators that answer a batch of [n] pairs with [n]
    rows (offset tables, start rows, end rows), the call returns [res]
    exactly when [res] has [n] elements and, for every [k], its [k]-th
    element is what the decoder yields for the [k]-th prompt, the
    [k]-th content, the [k]-th offset table and the spans assembled
    from the [k]-th rows.  This holds for every batch, hence for every
    order in which the pairs are given; and decoding the rows of the
    batch in any other order yields the same results in that order,
    each row keeping its own. *)
Theorem inference_preserves_batch_order (model_ : model) (tok : tokenizer)
  (device : string) (contents prompts : list pystr) (max_length : Z)
  (prob_threshold : Q) (inputs : encoded) (output_sp output_ep : table)
  (start_ids_list end_ids_list : list (list Z)) :
  length contents = length prompts ->
  convert_inputs tok prompts contents max_length = Ok inputs ->
  length (offset_mapping inputs) = length prompts ->
  model_answer tensor_to model_ device inputs = Ok (output_sp, output_ep) ->
  get_bool_ids_greater_than output_sp prob_threshold = Ok start_ids_list ->
  get_bool_ids_greater_than output_ep prob_threshold = Ok end_ids_list ->
  length start_ids_list = length prompts ->
  length end_ids_list = length prompts ->
  forall res,
    (outcome (infer model_ tok device contents prompts max_length
                    prob_threshold) = Ok res <->
     length res = length prompts /\
     forall k, (k < length prompts)%nat ->
       decode_spans (nth k prompts []) (nth k contents [])
                    (nth k (offset_mapping inputs) [])
                    (get_span (nth k start_ids_list [])
                              (nth k end_ids_list [])) =
       Ok (nth k res [])) /\
    (outcome (infer model_ tok device contents prompts max_length
                    prob_threshold) = Ok res ->
     forall rows,
       Permutation (zip5 start_ids_list end_ids_list prompts contents
                         (offset_mapping inputs)) rows ->
       exists res',
         rmapM (decoded_row get_span) rows = Ok res' /\
         Permutation
           (combine (zip5 start_ids_list end_ids_list prompts contents
                          (offset_mapping inputs)) res)
           (combine rows res')).
Proof.
  intros Hcontents Hconv Hom Hmodel Hsp Hep Hstarts Hends res.
  rewrite inference_outcome, Hconv. simpl.
  rewrite Hmodel. simpl. rewrite Hsp. simpl. rewrite Hep. simpl.
  split.
  - rewrite rmapM_Forall2.
    apply (Forall2_zip5_nth
             (fun row out => decoded_row get_span row = Ok out)
             [] [] [] [] [] []); assumption || reflexivity.
  - intros Hres rows Hperm.
    exact (rmapM_permutation _ _ _ Hperm res Hres).
Qed.

(** C7, as amended.  An error of the binarizer on either probability
    table (a [ShapeError] for a table that is not rectangular, by
    section 4.1) ends the whole call with that error.  [inference]
    itself compares neither row counts nor row lengths with the offset
    table: once both tables are binarized, the rows that are decoded are
    those of the shortest of the start rows, the end rows, the prompts,
    the contents and the offset tables, and a result has that many
    elements. *)
Theorem inference_checks_no_shapes (model_ : model) (tok : tokenizer)
  (device : string) (contents prompts : list pystr) (max_length : Z)
  (prob_threshold : Q) (inputs : encoded) (output_sp output_ep : table) :
  convert_inputs tok prompts contents max_length = Ok inputs ->
  model_answer tensor_to model_ device inputs = Ok (output_sp, output_ep) ->
  (forall e,
      get_bool_ids_greater_than output_sp prob_threshold = Err e ->
      outcome (infer model_ tok device contents prompts max_length
                     prob_threshold) = Err e) /\
  (forall start_ids_list e,
      get_bool_ids_greater_than output_sp prob_threshold = Ok start_ids_list ->
      get_bool_ids_greater_than output_ep prob_threshold = Err e ->
      outcome (infer model_ tok device contents prompts max_length
                     prob_threshold) = Err e) /\
  (forall start_ids_list end_ids_list,
      get_bool_ids_greater_than output_sp prob_threshold = Ok start_ids_list ->
      get_bool_ids_greater_than output_ep prob_threshold = Ok end_ids_list ->
      outcome (infer model_ tok device contents prompts max_length
                     prob_threshold) =
      rmapM (decoded_row get_span)
            (zip5 start_ids_list end_ids_list prompts contents
                  (offset_mapping inputs)) /\
      forall res,
        outcome (infer model_ tok device contents prompts max_length
                       prob_threshold) = Ok res ->
        length res =
        Nat.min (length start_ids_list)
          (Nat.min (length end_ids_list)
             (Nat.min (length prompts)
                (Nat.min (length contents)
                         (length (offset_mapping inputs)))))).
Proof.
  intros Hconv Hmodel.
  rewrite inference_outcome, Hconv. simpl. rewrite Hmodel. simpl.
  split; [|split].
  - intros e ->. reflexivity.
  - intros starts e -> ->. reflexivity.
  - intros starts ends -> ->. simpl. split; [reflexivity|].
    intros res H. apply rmapM_length in H.
    rewrite H. apply zip5_length.
Qed.

End InferenceFacts.

Lemma inference_validates_nothing_witness :
  encode_calls
    (trace (Toy.inference (Toy.model_of Examples.wardrobe) tt "cpu"
              [str "red XL"] [str "color"] 128 (6 # 10))) =
  [([str "color"], [str "red XL"], 128)] /\
  invocations
    (trace (Toy.inference (Toy.model_of Examples.wardrobe) tt "cpu"
              [str "red XL"] [str "color"] 128 (6 # 10))) = 1%nat.
Proof.
  destruct (inference_validates_nothing unit Toy.convert_inputs Toy.tensor_to
              Modelv21_2.get_bool_ids_greater_than Modelv21_2.get_span
              (Toy.model_of Examples.wardrobe) tt "cpu"
              [str "red XL"] [str "color"] 128 (6 # 10))
    as [Hcalls [Hinvoked _]].
  split; [exact Hcalls|].
  eapply Hinvoked; reflexivity.
Defined.

(** C2 as stated fails: a threshold of 2, outside [0, 1], and a maximum
    length of 0 are both accepted; the call invokes the model and
    returns normally instead of failing with [ConfigError] first. *)
Lemma inference_config_counterexample :
  (1 < 2)%Q /\
  outcome (Toy.inference (Toy.model_of Examples.wardrobe) tt "cpu"
             [str "red XL"] [str "color"] 128 (2 # 1)) = Ok [[]] /\
  invocations
    (trace (Toy.inference (Toy.model_of Examples.wardrobe) tt "cpu"
              [str "red XL"] [str "color"] 128 (2 # 1))) = 1%nat /\
  outcome (Toy.inference (Toy.model_of Examples.wardrobe) tt "cpu"
             [str "red XL"] [str "color"] 0 (6 # 10)) = Ok [[]] /\
  invocations
    (trace (Toy.inference (Toy.model_of Examples.wardrobe) tt "cpu"
              [str "red XL"] [str "color"] 0 (6 # 10))) = 1%nat.
Proof.
  split; [reflexivity|].
  repeat split; vm_compute; reflexivity.
Qed.

Lemma inference_preserves_batch_order_witness :
  length [[str "red"]; [str "XL"]] = length [str "color"; str "size"] /\
  decode_spans (str "size") (str "red XL")
               (Toy.row_offsets 128 (str "size") (str "red XL"))
               (Modelv21_2.get_span [10] [11]) = Ok [str "XL"] /\
  exists res',
    rmapM (decoded_row Modelv21_2.get_span)
          [ ([10], [11], str "size", str "red XL",
             Toy.row_offsets 128 (str "size") (str "red XL"));
            ([7], [9], str "color", str "red XL",
             Toy.row_offsets 128 (str "color") (str "red XL")) ] = Ok res'.
Proof.
  destruct (inference_preserves_batch_order unit Toy.convert_inputs Toy.tensor_to
              Modelv21_2.get_bool_ids_greater_than Modelv21_2.get_span
              (Toy.model_of Examples.wardrobe) tt "cpu"
              [str "red XL"; str "red XL"] [str "color"; str "size"]
              128 (6 # 10) _ _ _ [[7]; [10]] [[9]; [11]]
              eq_refl eq_refl eq_refl eq_refl
              ltac:(vm_compute; reflexivity) ltac:(vm_compute; reflexivity)
              eq_refl eq_refl [[str "red"]; [str "XL"]])
    as [[Hforward _] Hreorder].
  destruct Hforward as [Hlen Hnth]; [vm_compute; reflexivity|].
  split; [exact Hlen|].
  split; [apply (Hnth 1%nat); simpl; lia|].
  destruct (Hreorder ltac:(vm_compute; reflexivity)
              [ ([10], [11], str "size", str "red XL",
                 Toy.row_offsets 128 (str "size") (str "red XL"));
                ([7], [9], str "color", str "red XL",
                 Toy.row_offsets 128 (str "color") (str "red XL")) ])
    as [res' [Hres' _]].
  - apply perm_swap.
  - exists res'. exact Hres'.
Defined.

Lemma inference_checks_no_shapes_witness :
  outcome (inference unit Toy.convert_inputs Toy.tensor_to
             Modelv21_2.get_bool_ids_greater_than Modelv21_2.get_span
             Examples.ragged_model tt "cpu"
             [str "ab"; str "cd"] [str "x"; str "y"] 8 (1 # 2)) =
  Err ShapeError /\
  length [[str "a"]] =
  Nat.min 1 (Nat.min 1 (Nat.min 2 (Nat.min 2 2))).
Proof.
  split.
  - destruct (inference_checks_no_shapes unit Toy.convert_inputs Toy.tensor_to
                Modelv21_2.get_bool_ids_greater_than Modelv21_2.get_span
                Examples.ragged_model tt "cpu"
                [str "ab"; str "cd"] [str "x"; str "y"] 8 (1 # 2) _ _ _
                eq_refl eq_refl) as [Hragged _].
    apply Hragged. reflexivity.
  - destruct (inference_checks_no_shapes unit Toy.convert_inputs Toy.tensor_to
                Modelv21_2.get_bool_ids_greater_than Modelv21_2.get_span
                Examples.one_row_model tt "cpu"
                [str "ab"; str "cd"] [str "x"; str "y"] 8 (1 # 2) _ _ _
                eq_refl eq_refl) as [_ [_ Hrows]].
    destruct (Hrows [[3]] [[3]]) as [_ Hlen];
      [vm_compute; reflexivity | vm_compute; reflexivity |].
    apply (Hlen [[str "a"]]). vm_compute. reflexivity.
Defined.

(** C7 as stated fails: for a batch of two pairs whose offset tables
    have eight entries each, a model that answers with one row of four
    probabilities per table is not refused with [ShapeError]; the call
    returns a result for the first pair alone. *)
Lemma inference_shape_counterexample :
  outcome (inference unit Toy.convert_inputs Toy.tensor_to
             Modelv21_2.get_bool_ids_greater_than Modelv21_2.get_span
             Examples.one_row_model tt "cpu"
             [str "ab"; str "cd"] [str "x"; str "y"] 8 (1 # 2)) =
  Ok [[str "a"]] /\
  outcome (inference unit Toy.convert_inputs Toy.tensor_to
             Modelv21_2.get_bool_ids_greater_than Modelv21_2.get_span
             Examples.one_row_model tt "cpu"
             [str "ab"; str "cd"] [str "x"; str "y"] 8 (1 # 2)) <>
  Err ShapeError.
Proof.
  split; [vm_compute; reflexivity | vm_compute; discriminate].
Qed.

(** ** Dictionaries *)

Lemma pystr_eqb_eq (a b : pystr) : pystr_eqb a b = true <-> a = b.
Proof.
  unfold pystr_eqb. destruct (list_eq_dec Z.eq_dec a b); split;
    congruence.
Qed.

Lemma pystr_eqb_refl (a : pystr) : pystr_eqb a a = true.
Proof. apply pystr_eqb_eq. reflexivity. Qed.

Lemma dict_get_set {V} (d : dict V) (k : pystr) (v : V) :
  dict_get (dict_set d k v) k = Some v.
Proof.
  induction d as [|[k' v'] d IH]; simpl.
  - rewrite pystr_eqb_refl. reflexivity.
  - destruct (pystr_eqb k' k) eqn:Hk; simpl; rewrite Hk;
      [reflexivity | exact IH].
Qed.

Lemma dict_set_set {V} (d : dict V) (k : pystr) (v v' : V) :
  dict_set (dict_set d k v) k v' = dict_set d k v'.
Proof.
  induction d as [|[k0 v0] d IH]; simpl.
  - rewrite pystr_eqb_refl. reflexivity.
  - destruct (pystr_eqb k0 k) eqn:Hk; simpl; rewrite Hk;
      [reflexivity | rewrite IH; reflexivity].
Qed.

Lemma dict_set_get {V} (d : dict V) (k : pystr) (v : V) :
  dict_get d k = Some v -> dict_set d k v = d.
Proof.
  induction d as [|[k0 v0] d IH]; simpl; [discriminate|].
  destruct (pystr_eqb k0 k) eqn:Hk.
  - intros H. injection H as ->. reflexivity.
  - intros H. rewrite IH by exact H. reflexivity.
Qed.

(** [rsp[key][a] = r] for each pair, on a result that has the key. *)
Lemma set_inner_loop (key : pystr) (pairs : list (pystr * list pystr)) :
  forall (rsp : nested_result) (inner : flat_result),
    dict_get rsp key = Some inner ->
    for_r pairs (set_inner key) rsp =
    Ok (dict_set rsp key (assign_all inner pairs)).
Proof.
  induction pairs as [|ar pairs IH]; intros rsp inner Hget; simpl.
  - rewrite dict_set_get by exact Hget. reflexivity.
  - unfold set_inner at 1. rewrite Hget. simpl.
    rewrite (IH _ (dict_set inner (fst ar) (snd ar)))
      by apply dict_get_set.
    rewrite dict_set_set. reflexivity.
Qed.

(** ** Running computations *)

Lemma trace_bind_ok {A B} (m : M A) (f : A -> M B) (a : A) :
  outcome m = Ok a ->
  outcome (bind m f) = outcome (f a) /\
  trace (bind m f) = trace m ++ trace (f a).
Proof.
  destruct m as [r t]. unfold outcome, trace, bind. simpl. intros ->.
  destruct (f a) as [r' t']. split; reflexivity.
Qed.

Lemma trace_bind_err {A B} (m : M A) (f : A -> M B) (e : exn) :
  outcome m = Err e ->
  outcome (bind m f) = Err e /\ trace (bind m f) = trace m.
Proof.
  destruct m as [r t]. unfold outcome, trace, bind. simpl. intros ->.
  split; reflexivity.
Qed.

Lemma runs_ret {A} (a : A) (P : A -> Prop) : P a -> runs_as (ret a) [] P.
Proof. intros H. unfold runs_as. simpl. split; [reflexivity|exact H]. Qed.

Lemma runs_lift {A} (r : result A) (P : A -> Prop) :
  (forall a, r = Ok a -> P a) -> runs_as (lift r) [] P.
Proof.
  intros H. unfold runs_as, lift, outcome, trace. simpl.
  destruct r as [a|e].
  - split; [reflexivity|]. apply H. reflexivity.
  - exists []. reflexivity.
Qed.

Lemma runs_bind {A B} (m : M A) (f : A -> M B) (t1 t2 : list event)
  (P : A -> Prop) (Q : B -> Prop) :
  runs_as m t1 P ->
  (forall a, outcome m = Ok a -> P a -> runs_as (f a) t2 Q) ->
  runs_as (bind m f) (t1 ++ t2) Q.
Proof.
  unfold runs_as at 1. intros Hm Hf.
  destruct (outcome m) as [a|e] eqn:Hout.
  - destruct Hm as [Ht HP].
    destruct (trace_bind_ok m f a Hout) as [Ho Htr].
    specialize (Hf a eq_refl HP). unfold runs_as in *.
    rewrite Ho, Htr, Ht.
    destruct (outcome (f a)).
    + destruct Hf as [-> HQ]. split; [reflexivity|exact HQ].
    + destruct Hf as [rest ->]. exists rest. apply app_assoc.
  - destruct Hm as [rest ->].
    destruct (trace_bind_err m f e Hout) as [Ho Htr].
    unfold runs_as. rewrite Ho, Htr.
    exists (rest ++ t2). symmetry. apply app_assoc.
Qed.

(** A loop whose iterations run as expected runs as their sequence. *)
Lemma runs_for {A S} (body : A -> S -> M S) (expected : A -> list event)
  (step : S -> A -> S) (l : list A) :
  (forall x s, In x l ->
               runs_as (body x s) (expected x) (fun s' => s' = step s x)) ->
  forall s,
    runs_as (for_ l body s) (flat_map expected l)
            (fun s' => s' = fold_left step l s).
Proof.
  induction l as [|x l IH]; intros Hbody s; simpl.
  - apply runs_ret. reflexivity.
  - eapply runs_bind.
    + apply Hbody. left. reflexivity.
    + intros s' _ ->. apply IH.
      intros x' s'' Hin. apply Hbody. right. exact Hin.
Qed.

Lemma bind_lift_ok {A B} (a : A) (f : A -> M B) : bind (lift (Ok a)) f = f a.
Proof. unfold bind, lift. destruct (f a). reflexivity. Qed.

Lemma runs_call {A} (m : M A) :
  runs_as m (trace m) (fun a => outcome m = Ok a).
Proof.
  unfold runs_as. destruct (outcome m) eqn:H.
  - split; reflexivity.
  - exists []. symmetry. apply app_nil_r.
Qed.

Lemma flat_map_filter {A B} (p : A -> bool) (f : A -> list B) (l : list A) :
  flat_map (fun x => if p x then f x else []) l = flat_map f (filter p l).
Proof.
  induction l as [|x l IH]; simpl; [reflexivity|].
  destruct (p x); simpl; rewrite IH; reflexivity.
Qed.

Lemma fold_left_filter {A S} (p : A -> bool) (g : S -> A -> S) (l : list A) :
  forall s,
    fold_left (fun s x => if p x then g s x else s) l s =
    fold_left g (filter p l) s.
Proof.
  induction l as [|x l IH]; intros s; simpl; [reflexivity|].
  destruct (p x); simpl; apply IH.
Qed.

Lemma encode_calls_app (t1 t2 : list event) :
  encode_calls (t1 ++ t2) = encode_calls t1 ++ encode_calls t2.
Proof. apply flat_map_app. Qed.

Lemma printed_values_app (t1 t2 : list event) :
  printed_values (t1 ++ t2) = printed_values t1 ++ printed_values t2.
Proof. apply flat_map_app. Qed.

Lemma encode_calls_flat_map {A} (f : A -> list event) (l : list A) :
  encode_calls (flat_map f l) = flat_map (fun x => encode_calls (f x)) l.
Proof.
  induction l as [|x l IH]; simpl; [reflexivity|].
  rewrite encode_calls_app, IH. reflexivity.
Qed.

Lemma printed_values_flat_map {A} (f : A -> list event) (l : list A) :
  printed_values (flat_map f l) = flat_map (fun x => printed_values (f x)) l.
Proof.
  induction l as [|x l IH]; simpl; [reflexivity|].
  rewrite printed_values_app, IH. reflexivity.
Qed.

Lemma flat_map_single {A B} (g : A -> B) (l : list A) :
  flat_map (fun x => [g x]) l = map g l.
Proof.
  induction l as [|x l IH]; simpl; [reflexivity|].
  rewrite IH. reflexivity.
Qed.

Lemma flat_map_all_nil {A B} (f : A -> list B) (l : list A) :
  (forall x, f x = []) -> flat_map f l = [].
Proof.
  intros H. induction l as [|x l IH]; simpl; [reflexivity|].
  rewrite H, IH. reflexivity.
Qed.

Lemma trace_bind_begins {A B} (m : M A) (f : A -> M B) :
  exists tail, trace (bind m f) = trace m ++ tail.
Proof.
  destruct (outcome m) as [a|e] eqn:Hm.
  - destruct (trace_bind_ok m f a Hm) as [_ Ht]. eexists. exact Ht.
  - destruct (trace_bind_err m f e Hm) as [_ Ht].
    exists []. rewrite app_nil_r. exact Ht.
Qed.

(** A loop that raises has run the iterations before the one that
    raises to their normal end. *)
Lemma for_stops {A S} (body : A -> S -> M S) (expected : A -> list event)
  (step : S -> A -> S) (l : list A) :
  (forall x s, In x l ->
               runs_as (body x s) (expected x) (fun s' => s' = step s x)) ->
  forall s e,
    outcome (for_ l body s) = Err e ->
    exists l1 x l2 s0,
      l = l1 ++ x :: l2 /\
      outcome (body x s0) = Err e /\
      trace (for_ l body s) = flat_map expected l1 ++ trace (body x s0).
Proof.
  induction l as [|x l IH]; simpl; intros Hbody s e H; [discriminate|].
  destruct (outcome (body x s)) as [s'|e0] eqn:Hx.
  - destruct (trace_bind_ok (body x s) (fun s1 => for_ l body s1) s' Hx)
      as [Ho Ht].
    rewrite Ho in H.
    destruct (IH (fun x' s0 Hin => Hbody x' s0 (or_intror Hin)) s' e H)
      as [l1 [x' [l2 [s0 [Hl [Herr Htrace]]]]]].
    exists (x :: l1), x', l2, s0. split; [rewrite Hl; reflexivity|].
    split; [exact Herr|].
    pose proof (Hbody x s (or_introl eq_refl)) as Hruns.
    unfold runs_as in Hruns. rewrite Hx in Hruns. destruct Hruns as [Hexp _].
    rewrite Ht, Htrace, Hexp. simpl. apply app_assoc.
  - destruct (trace_bind_err (body x s) (fun s1 => for_ l body s1) e0 Hx)
      as [Ho Ht].
    rewrite Ho in H. injection H as ->.
    exists [], x, l, s. split; [reflexivity|]. split; [exact Hx|].
    rewrite Ht. reflexivity.
Qed.

(** ** The schema orchestrator (section 4.5) *)

Section OrchestratorFacts.

Variable tokenizer : Type.
Variable convert_inputs :
  tokenizer -> list pystr -> list pystr -> Z -> result encoded.
Variable tensor_to : list (list Z) -> string -> result (list (list Z)).
Variable get_bool_ids_greater_than : table -> Q -> result (list (list Z)).
Variable get_span : list Z -> list Z -> list (Z * Z).
Variable model_ : model.
Variable tok : tokenizer.
Variable device : string.
Variable sentence : pystr.
Variable schema : dict (list pystr).
Variable prob_threshold : Q.
Variable max_seq_len : Z.

Local Abbreviation infer :=
  (inference tokenizer convert_inputs tensor_to get_bool_ids_greater_than get_span
     model_ tok device).
Local Abbreviation stage_one' :=
  (stage_one tokenizer convert_inputs tensor_to get_bool_ids_greater_than get_span
     model_ tok device sentence prob_threshold).
Local Abbreviation instances' :=
  (instances tokenizer convert_inputs tensor_to get_bool_ids_greater_than get_span
     model_ tok device sentence prob_threshold).
Local Abbreviation stage_two' :=
  (stage_two tokenizer convert_inputs tensor_to get_bool_ids_greater_than get_span
     model_ tok device sentence schema prob_threshold max_seq_len).
Local Abbreviation call_trace' :=
  (call_trace tokenizer convert_inputs tensor_to get_bool_ids_greater_than get_span
     model_ tok device prob_threshold).
Local Abbreviation cascade_trace' :=
  (cascade_trace tokenizer convert_inputs tensor_to get_bool_ids_greater_than get_span
     model_ tok device sentence schema prob_threshold max_seq_len).
Local Abbreviation dependent_prompts' := (dependent_prompts schema).
Local Abbreviation dependent_contents' := (dependent_contents sentence schema).

(** The dependent batch of an instance, as the loop bodies issue it. *)
Lemma runs_dependent_batch (key instance : pystr)
  (store : list (pystr * list pystr) -> result nested_result)
  (P : nested_result -> Prop) :
  (forall rsp', store (stage_two' key instance) = Ok rsp' -> P rsp') ->
  runs_as
    (arguments <- lift (schema_get schema key) ;;
     res <- infer (repeat sentence (length arguments))
                  (map (fun a => instance ++ de ++ a) arguments)
                  max_seq_len prob_threshold ;;
     lift (store (combine arguments res)))
    (call_trace' (dependent_contents' key) (dependent_prompts' key instance)
                 max_seq_len)
    P.
Proof.
  intros Hstore.
  unfold schema_get, stage_two, dependent_contents, dependent_prompts,
    dependents in *.
  destruct (dict_get schema key) as [arguments|].
  - rewrite bind_lift_ok.
    rewrite <- (app_nil_r (call_trace' _ _ _)).
    eapply runs_bind; [apply runs_call|].
    intros res Hres _. apply runs_lift.
    intros rsp' H. apply Hstore. rewrite Hres. exact H.
  - unfold runs_as. simpl. eexists. reflexivity.
Qed.

Lemma runs_subject_body (key subject : pystr) (rsp : nested_result) :
  runs_as
    (information_subject_body tokenizer convert_inputs tensor_to
       get_bool_ids_greater_than get_span model_ tok device sentence schema
       prob_threshold max_seq_len key subject rsp)
    (if truthy subject
     then call_trace' (dependent_contents' key)
                      (dependent_prompts' key subject) max_seq_len
     else [])
    (fun rsp' =>
       rsp' = if truthy subject
              then dict_set rsp subject
                            (assign_all [] (stage_two' key subject))
              else rsp).
Proof.
  unfold information_subject_body. destruct (truthy subject).
  - apply (runs_dependent_batch key subject
             (fun pairs =>
                for_r pairs (set_inner subject) (dict_set rsp subject []))).
    intros rsp'.
    rewrite (set_inner_loop subject _ _ []) by apply dict_get_set.
    rewrite dict_set_set. congruence.
  - apply runs_ret. reflexivity.
Qed.

Lemma runs_subject_loop (key : pystr) (subjects : list pystr)
  (rsp : nested_result) :
  runs_as
    (for_ subjects
          (information_subject_body tokenizer convert_inputs tensor_to
             get_bool_ids_greater_than get_span model_ tok device sentence
             schema prob_threshold max_seq_len key) rsp)
    (flat_map (fun instance =>
                 call_trace' (dependent_contents' key)
                             (dependent_prompts' key instance) max_seq_len)
              (filter truthy subjects))
    (fun rsp' =>
       rsp' =
       fold_left (fun rsp instance =>
                    dict_set rsp instance
                             (assign_all [] (stage_two' key instance)))
                 (filter truthy subjects) rsp).
Proof.
  rewrite <- flat_map_filter, <- fold_left_filter.
  apply (runs_for _
           (fun subject =>
              if truthy subject
              then call_trace' (dependent_contents' key)
                               (dependent_prompts' key subject) max_seq_len
              else [])
           (fun rsp subject =>
              if truthy subject
              then dict_set rsp subject
                            (assign_all [] (stage_two' key subject))
              else rsp)).
  intros subject rsp0 _. apply runs_subject_body.
Qed.

Lemma runs_subject_prompt (key : pystr) (rsp : nested_result) :
  runs_as
    (information_prompt_body tokenizer convert_inputs tensor_to
       get_bool_ids_greater_than get_span model_ tok device sentence schema
       prob_threshold max_seq_len key rsp)
    (cascade_trace' key)
    (fun rsp' =>
       rsp' =
       fold_left (fun rsp instance =>
                    dict_set rsp instance
                             (assign_all [] (stage_two' key instance)))
                 (instances' key) rsp).
Proof.
  unfold information_prompt_body, cascade_trace.
  eapply runs_bind; [apply runs_call|].
  intros batch Hbatch _.
  unfold instances, stage_one. rewrite Hbatch. cbn [rbind].
  destruct (py_index batch 0) as [subjects|e].
  - rewrite bind_lift_ok. apply runs_subject_loop.
  - unfold runs_as. simpl. exists []. reflexivity.
Qed.

(** The merge of an instance's entries into the mapping of the trigger
    prompt. *)
Lemma runs_trigger_body (key trigger : pystr) (rsp : nested_result) :
  runs_as
    (event_trigger_body tokenizer convert_inputs tensor_to get_bool_ids_greater_than
       get_span model_ tok device sentence schema prob_threshold max_seq_len
       key trigger rsp)
    (if truthy trigger
     then call_trace' (dependent_contents' key)
                      (dependent_prompts' key trigger) max_seq_len
     else [])
    (fun rsp' =>
       rsp' = if truthy trigger
              then match dict_get rsp key with
                   | Some inner =>
                       dict_set rsp key
                                (assign_all inner (stage_two' key trigger))
                   | None => rsp
                   end
              else rsp).
Proof.
  unfold event_trigger_body. destruct (truthy trigger).
  - apply (runs_dependent_batch key trigger
             (fun pairs => for_r pairs (set_inner key) rsp)).
    intros rsp'. destruct (dict_get rsp key) as [inner|] eqn:Hget.
    + rewrite (set_inner_loop key _ _ inner) by exact Hget. congruence.
    + destruct (stage_two' key trigger) as [|ar pairs]; simpl.
      * congruence.
      * unfold set_inner at 1. rewrite Hget. discriminate.
  - apply runs_ret. reflexivity.
Qed.

Lemma merge_instances (key : pystr) (l : list pystr) :
  forall (rsp : nested_result) (inner : flat_result),
    fold_left
      (fun rsp trigger =>
         match dict_get rsp key with
         | Some inner =>
             dict_set rsp key (assign_all inner (stage_two' key trigger))
         | None => rsp
         end)
      l (dict_set rsp key inner) =
    dict_set rsp key
      (fold_left (fun inner trigger =>
                    assign_all inner (stage_two' key trigger)) l inner).
Proof.
  induction l as [|trigger l IH]; intros rsp inner; simpl; [reflexivity|].
  rewrite dict_get_set, dict_set_set. apply IH.
Qed.

Lemma runs_trigger_prompt (key : pystr) (rsp : nested_result) :
  runs_as
    (event_prompt_body tokenizer convert_inputs tensor_to get_bool_ids_greater_than
       get_span model_ tok device sentence schema prob_threshold max_seq_len
       key rsp)
    (cascade_trace' key)
    (fun rsp' =>
       rsp' =
       dict_set rsp key
         (fold_left (fun inner instance =>
                       assign_all inner (stage_two' key instance))
                    (instances' key) [])).
Proof.
  unfold event_prompt_body, cascade_trace.
  eapply runs_bind; [apply runs_call|].
  intros batch Hbatch _.
  unfold instances, stage_one. rewrite Hbatch. cbn [rbind].
  destruct (py_index batch 0) as [triggers|e].
  - rewrite bind_lift_ok.
    rewrite <- flat_map_filter, <- merge_instances, <- fold_left_filter.
    apply (runs_for _
             (fun trigger =>
                if truthy trigger
                then call_trace' (dependent_contents' key)
                                 (dependent_prompts' key trigger) max_seq_len
                else [])
             (fun rsp trigger =>
                if truthy trigger
                then match dict_get rsp key with
                     | Some inner =>
                         dict_set rsp key
                                  (assign_all inner (stage_two' key trigger))
                     | None => rsp
                     end
                else rsp)).
    intros trigger rsp0 _. apply runs_trigger_body.
  - unfold runs_as. simpl. exists []. reflexivity.
Qed.

Local Abbreviation cascade_calls' :=
  (cascade_calls tokenizer convert_inputs tensor_to get_bool_ids_greater_than get_span
     model_ tok device sentence schema prob_threshold max_seq_len).
Local Abbreviation subject_results' :=
  (subject_results tokenizer convert_inputs tensor_to get_bool_ids_greater_than
     get_span model_ tok device sentence schema prob_threshold max_seq_len).
Local Abbreviation trigger_results' :=
  (trigger_results tokenizer convert_inputs tensor_to get_bool_ids_greater_than
     get_span model_ tok device sentence schema prob_threshold max_seq_len).
Local Abbreviation information_run :=
  (information_extract_example tokenizer convert_inputs tensor_to
     get_bool_ids_greater_than get_span model_ tok device sentence schema
     prob_threshold max_seq_len).
Local Abbreviation event_run :=
  (event_extract_example tokenizer convert_inputs tensor_to
     get_bool_ids_greater_than get_span model_ tok device sentence schema
     prob_threshold max_seq_len).

Lemma call_trace_encode_calls (contents prompts : list pystr)
  (max_length : Z) :
  encode_calls (call_trace' contents prompts max_length) =
  [(prompts, contents, max_length)].
Proof. apply inference_encode_calls. Qed.

Lemma call_trace_printed_values (contents prompts : list pystr)
  (max_length : Z) :
  printed_values (call_trace' contents prompts max_length) = [].
Proof.
  unfold call_trace. rewrite inference_trace. simpl.
  destruct (convert_inputs _ _ _ _); [|reflexivity].
  destruct (moved_inputs _ _ _); reflexivity.
Qed.

Lemma cascade_trace_encode_calls (key : pystr) :
  encode_calls (cascade_trace' key) = cascade_calls' key.
Proof.
  unfold cascade_trace, cascade_calls.
  rewrite encode_calls_app, call_trace_encode_calls, encode_calls_flat_map.
  simpl. f_equal.
  rewrite <- flat_map_single. apply flat_map_ext.
  intros instance. apply call_trace_encode_calls.
Qed.

Lemma cascade_trace_printed_values (key : pystr) :
  printed_values (cascade_trace' key) = [].
Proof.
  unfold cascade_trace.
  rewrite printed_values_app, call_trace_printed_values,
    printed_values_flat_map.
  simpl. apply flat_map_all_nil.
  intros instance. apply call_trace_printed_values.
Qed.

(** The whole run of subject-to-predicate extraction. *)
Lemma runs_information_extract :
  runs_as information_run
    (flat_map cascade_trace' (keys schema) ++
     [Print "[+] Information-Extraction Results: "
            (PNested subject_results')])
    (fun r => r = ReturnsNone).
Proof.
  unfold information_extract_example.
  eapply runs_bind.
  - apply (runs_for _ cascade_trace'
             (fun rsp key =>
                fold_left (fun rsp instance =>
                             dict_set rsp instance
                                      (assign_all [] (stage_two' key instance)))
                          (instances' key) rsp)).
    intros key rsp _. apply runs_subject_prompt.
  - intros rsp _ ->. unfold runs_as. simpl. split; reflexivity.
Qed.

(** The whole run of trigger-to-argument extraction. *)
Lemma runs_event_extract :
  runs_as event_run
    (flat_map cascade_trace' (keys schema) ++
     [Print "[+] Event-Extraction Results: " (PNested trigger_results')])
    (fun r => r = ReturnsNone).
Proof.
  unfold event_extract_example.
  eapply runs_bind.
  - apply (runs_for _ cascade_trace'
             (fun rsp key =>
                dict_set rsp key
                  (fold_left (fun inner instance =>
                                assign_all inner (stage_two' key instance))
                             (instances' key) []))).
    intros key rsp _. apply runs_trigger_prompt.
  - intros rsp _ ->. unfold runs_as. simpl. split; reflexivity.
Qed.

(** What a run that ends normally did, and what a run that raises did
    until then. *)
Lemma cascade_run_facts (m : M (returned nested_result)) (label : string)
  (rsp : nested_result) :
  runs_as m (flat_map cascade_trace' (keys schema) ++
             [Print label (PNested rsp)])
          (fun r => r = ReturnsNone) ->
  (forall r, outcome m = Ok r ->
             r = ReturnsNone /\
             encode_calls (trace m) = flat_map cascade_calls' (keys schema) /\
             printed_values (trace m) = [PNested rsp]) /\
  exists rest,
    flat_map cascade_calls' (keys schema) = encode_calls (trace m) ++ rest.
Proof.
  assert (Hcalls :
            encode_calls (flat_map cascade_trace' (keys schema) ++
                          [Print label (PNested rsp)]) =
            flat_map cascade_calls' (keys schema)).
  { rewrite encode_calls_app, encode_calls_flat_map. simpl.
    rewrite app_nil_r. apply flat_map_ext.
    intros key. apply cascade_trace_encode_calls. }
  assert (Hprinted :
            printed_values (flat_map cascade_trace' (keys schema) ++
                            [Print label (PNested rsp)]) =
            [PNested rsp]).
  { rewrite printed_values_app, printed_values_flat_map. simpl.
    rewrite flat_map_all_nil; [reflexivity|].
    intros key. apply cascade_trace_printed_values. }
  unfold runs_as. destruct (outcome m) as [r|e].
  - intros [Ht ->]. rewrite Ht. split.
    + intros r H. injection H as <-. repeat split; assumption.
    + exists []. rewrite app_nil_r. symmetry. exact Hcalls.
  - intros [rest Hrest]. split; [discriminate|].
    exists (encode_calls rest).
    rewrite <- Hcalls, Hrest. apply encode_calls_app.
Qed.


(** A two-level run that raises has made the calls of the prompts
    before the one where it stopped, then the stage-one call of that
    prompt, then some of its dependent batches. *)
Lemma cascade_stops (body : pystr -> nested_result -> M nested_result)
  (step : nested_result -> pystr -> nested_result) (label : string)
  (e : exn) :
  (forall key rsp,
      exists tail,
        trace (body key rsp) = call_trace' [sentence] [key] 128 ++ tail) ->
  (forall key rsp,
      runs_as (body key rsp) (cascade_trace' key)
              (fun rsp' => rsp' = step rsp key)) ->
  outcome (rsp <- for_ (keys schema) body [] ;;
           _ <- call (Print label (PNested rsp)) (Ok tt) ;;
           ret (@ReturnsNone nested_result)) = Err e ->
  exists done key pending batches rest,
    keys schema = done ++ key :: pending /\
    encode_calls
      (trace (rsp <- for_ (keys schema) body [] ;;
              _ <- call (Print label (PNested rsp)) (Ok tt) ;;
              ret (@ReturnsNone nested_result))) =
    flat_map cascade_calls' done ++ ([key], [sentence], 128) :: batches /\
    cascade_calls' key = ([key], [sentence], 128) :: batches ++ rest.
Proof.
  intros Hbegins Hruns H.
  destruct (outcome (for_ (keys schema) body [])) as [rsp|e0] eqn:Hloop.
  - match goal with
    | H : outcome (bind ?m ?f) = _ |- _ =>
        destruct (trace_bind_ok m f rsp Hloop) as [Ho _]
    end.
    rewrite Ho in H. discriminate.
  - match goal with
    | H : outcome (bind ?m ?f) = _ |- _ =>
        destruct (trace_bind_err m f e0 Hloop) as [_ Ht]
    end.
    rewrite Ht.
    destruct (for_stops body cascade_trace' step (keys schema)
                (fun key rsp _ => Hruns key rsp) [] e0 Hloop)
      as [done [key [pending [rsp [Hkeys [Herr Htrace]]]]]].
    destruct (Hbegins key rsp) as [tail Htail].
    pose proof (Hruns key rsp) as Hkey. unfold runs_as in Hkey.
    rewrite Herr in Hkey. destruct Hkey as [rest Hrest].
    exists done, key, pending, (encode_calls tail), (encode_calls rest).
    split; [exact Hkeys|]. split.
    + rewrite Htrace, encode_calls_app, encode_calls_flat_map, Htail,
        encode_calls_app, call_trace_encode_calls.
      f_equal. apply flat_map_ext. intros key'.
      apply cascade_trace_encode_calls.
    + rewrite <- cascade_trace_encode_calls, Hrest, Htail,
        !encode_calls_app, call_trace_encode_calls.
      reflexivity.
Qed.

(** C10.  The flat mode makes its one call with maximum length 128,
    whatever happens afterwards.  A two-level run that ends normally has
    made, for each top-level prompt of the schema in order, the
    stage-one call with maximum length 128 and then the dependent batch
    of each instance with the caller's [max_seq_len], and no other call.
    A two-level run that raises has made these calls for the prompts
    before the one where it stopped, then the stage-one call of that
    prompt, again with maximum length 128, then the first of its
    dependent batches, each with [max_seq_len]. *)
Theorem stage_one_max_length_is_128 :
  (forall names : list pystr,
      encode_calls
        (trace (ner_example tokenizer convert_inputs tensor_to
                  get_bool_ids_greater_than get_span model_ tok device
                  sentence names prob_threshold)) =
      [(names, repeat sentence (length names), 128)]) /\
  (forall m,
      m = information_run \/ m = event_run ->
      (forall r,
          outcome m = Ok r ->
          encode_calls (trace m) =
          flat_map
            (fun key =>
               ([key], [sentence], 128) ::
               map (fun instance =>
                      (dependent_prompts' key instance,
                       dependent_contents' key, max_seq_len))
                   (instances' key))
            (keys schema)) /\
      (forall e,
          outcome m = Err e ->
          exists done key pending batches rest,
            keys schema = done ++ key :: pending /\
            encode_calls (trace m) =
            flat_map
              (fun key =>
                 ([key], [sentence], 128) ::
                 map (fun instance =>
                        (dependent_prompts' key instance,
                         dependent_contents' key, max_seq_len))
                     (instances' key))
              done ++
            ([key], [sentence], 128) :: batches /\
            map (fun instance =>
                   (dependent_prompts' key instance,
                    dependent_contents' key, max_seq_len))
                (instances' key) = batches ++ rest)).
Proof.
  split.
  - intros names. unfold ner_example.
    destruct (outcome (infer (repeat sentence (length names)) names 128
                             prob_threshold)) as [res|e] eqn:Hres.
    + match goal with
      | |- context [trace (bind ?m ?f)] =>
          destruct (trace_bind_ok m f res Hres) as [_ Ht]
      end.
      rewrite Ht, encode_calls_app, inference_encode_calls.
      reflexivity.
    + match goal with
      | |- context [trace (bind ?m ?f)] =>
          destruct (trace_bind_err m f e Hres) as [_ Ht]
      end.
      rewrite Ht. apply inference_encode_calls.
  - intros m Hm. split.
    + intros r H.
      change (encode_calls (trace m) =
              flat_map cascade_calls' (keys schema)).
      destruct Hm as [-> | ->].
      * destruct (cascade_run_facts _ _ _ runs_information_extract)
          as [Hok _].
        apply (Hok r H).
      * destruct (cascade_run_facts _ _ _ runs_event_extract) as [Hok _].
        apply (Hok r H).
    + intros e H.
      assert (Hstops :
                exists done key pending batches rest,
                  keys schema = done ++ key :: pending /\
                  encode_calls (trace m) =
                  flat_map cascade_calls' done ++
                  ([key], [sentence], 128) :: batches /\
                  cascade_calls' key =
                  ([key], [sentence], 128) :: batches ++ rest).
      { destruct Hm as [-> | ->].
        - unfold information_extract_example in *.
          eapply cascade_stops; [| |exact H].
          + intros key rsp. unfold information_prompt_body, call_trace.
            apply trace_bind_begins.
          + intros key rsp. apply runs_subject_prompt.
        - unfold event_extract_example in *.
          eapply cascade_stops; [| |exact H].
          + intros key rsp. unfold event_prompt_body, call_trace.
            apply trace_bind_begins.
          + intros key rsp. apply runs_trigger_prompt. }
      destruct Hstops as [done [key [pending [batches [rest
                            [Hkeys [Hcalls Hkey]]]]]]].
      exists done, key, pending, batches, rest.
      split; [exact Hkeys|]. split; [exact Hcalls|].
      unfold cascade_calls in Hkey. injection Hkey as Hkey. exact Hkey.
Qed.

End OrchestratorFacts.



Lemma stage_one_max_length_is_128_witness :
  encode_calls
    (trace (Toy.ner_example (Toy.model_of Examples.wardrobe) tt "cpu"
              (str "red XL") [str "color"; str "size"] (6 # 10))) =
  [ ([str "color"; str "size"], [str "red XL"; str "red XL"], 128) ] /\
  encode_calls
    (trace (Toy.event_extract_example
              (Toy.model_of Examples.newsroom) tt "cpu" Examples.news
              Examples.news_schema (6 # 10) 64)) =
  [ ([str "event"], [Examples.news], 128);
    ([str "fire" ++ de ++ str "time"], [Examples.news], 64);
    ([str "flood" ++ de ++ str "time"], [Examples.news], 64) ] /\
  exists batches,
    encode_calls
      (trace (Toy.information_extract_example Examples.silent_model tt "cpu"
                Examples.news Examples.news_schema (6 # 10) 64)) =
    ([str "event"], [Examples.news], 128) :: batches.
Proof.
  destruct (stage_one_max_length_is_128 unit Toy.convert_inputs Toy.tensor_to
              Modelv21_2.get_bool_ids_greater_than Modelv21_2.get_span
              (Toy.model_of Examples.wardrobe) tt "cpu" (str "red XL")
              [] (6 # 10) 0) as [Hner _].
  split; [apply (Hner [str "color"; str "size"])|].
  split.
  - destruct (stage_one_max_length_is_128 unit Toy.convert_inputs
                Toy.tensor_to
                Modelv21_2.get_bool_ids_greater_than Modelv21_2.get_span
                (Toy.model_of Examples.newsroom) tt "cpu" Examples.news
                Examples.news_schema (6 # 10) 64) as [_ Hcascade].
    destruct (Hcascade _ (or_intror eq_refl)) as [Hnormal _].
    etransitivity; [apply (Hnormal ReturnsNone); vm_compute; reflexivity|].
    vm_compute. reflexivity.
  - destruct (stage_one_max_length_is_128 unit Toy.convert_inputs
                Toy.tensor_to
                Modelv21_2.get_bool_ids_greater_than Modelv21_2.get_span
                Examples.silent_model tt "cpu" Examples.news
                Examples.news_schema (6 # 10) 64) as [_ Hcascade].
    destruct (Hcascade _ (or_introl eq_refl)) as [_ Hraises].
    destruct (Hraises IndexError) as [done [key [pending [batches [rest
                                        [Hkeys [Hcalls _]]]]]]];
      [vm_compute; reflexivity|].
    destruct done as [|key0 done].
    + simpl in Hkeys. injection Hkeys as <- _.
      exists batches. exact Hcalls.
    + exfalso. simpl in Hkeys. injection Hkeys as _ Hkeys.
      destruct done; discriminate.
Defined.

(** C1: the mapping is built and printed, and nothing is returned.  On
    "red XL" with the schema ["color", "size"] the flat mode prints the
    mapping of "color" to ["red"] and of "size" to ["XL"], in that order,
    and its caller receives [None]. *)
Theorem ner_example_returns_none :
  outcome (Toy.ner_example (Toy.model_of Examples.wardrobe) tt "cpu"
             (str "red XL") [str "color"; str "size"] (6 # 10)) =
  Ok ReturnsNone /\
  printed_values
    (trace (Toy.ner_example (Toy.model_of Examples.wardrobe) tt "cpu"
              (str "red XL") [str "color"; str "size"] (6 # 10))) =
  [ PFlat [ (str "color", [str "red"]); (str "size", [str "XL"]) ] ].
Proof.
  split; vm_compute; reflexivity.
Qed.

(** ** Further properties of the span decoder *)

Lemma rmapM_ok_iff {A B} (f : A -> result B) (l : list A) :
  (exists ys, rmapM f l = Ok ys) <->
  (forall x, In x l -> exists y, f x = Ok y).
Proof.
  split; [|apply rmapM_total].
  intros [ys H] x Hin. apply rmapM_Forall2 in H.
  induction H as [|x' y l' ys' Hx Hrest IH]; [destruct Hin|].
  destruct Hin as [<- | Hin]; [exists y; exact Hx | apply IH; exact Hin].
Qed.

Lemma py_index_ok_iff {A} (l : list A) (i : Z) :
  0 <= i -> ((exists x, py_index l i = Ok x) <-> i < len l).
Proof.
  intros Hi. unfold py_index, len.
  destruct (Z.ltb_spec i 0); [lia|].
  destruct (Z.ltb_spec i 0); [lia|].
  destruct (nth_error l (Z.to_nat i)) as [x|] eqn:Hnth.
  - split; [|intros _; exists x; reflexivity].
    intros _. assert (Hn : nth_error l (Z.to_nat i) <> None) by congruence.
    apply nth_error_Some in Hn. lia.
  - split; [intros [x Hx]; discriminate|].
    apply nth_error_None in Hnth. lia.
Qed.

Lemma span_text_ok_iff (text : pystr) (om : list (Z * Z)) (span : Z * Z) :
  0 <= fst span ->
  ((exists t, span_text text om span = Ok t) <->
   (fst span <= snd span -> snd span < len om)).
Proof.
  intros Hfst. unfold span_text. rewrite span_text_loop. split.
  - intros [t Ht] Hle.
    destruct (rmapM (py_index om) (py_range (fst span) (snd span + 1)))
      as [entries|e] eqn:Hm; [|discriminate].
    assert (Hall : exists ys,
               rmapM (py_index om) (py_range (fst span) (snd span + 1)) =
               Ok ys) by (exists entries; exact Hm).
    rewrite rmapM_ok_iff in Hall.
    apply (py_index_ok_iff om (snd span)); [lia|].
    apply Hall. apply py_range_In. lia.
  - intros H.
    destruct (rmapM_total (py_index om)
                (py_range (fst span) (snd span + 1))) as [entries He].
    + intros i Hi. apply py_range_In in Hi.
      apply py_index_ok_iff; lia.
    + rewrite He. simpl. eexists. reflexivity.
Qed.

(** X1.  The decoder never looks up a token index below
    [len(prompt) + 2], so it never wraps around the offset table with a
    negative index.  It succeeds exactly when every span that it keeps
    and that is not empty ends inside the offset table; a kept span whose
    end lies before its start decodes to the empty string. *)
Theorem decoder_succeeds_iff_spans_end_in_table (prompt content : pystr)
  (offset_map : list (Z * Z)) (span_set : list (Z * Z)) :
  ((exists out, decode_spans prompt content offset_map span_set = Ok out) <->
   (forall span,
       In span span_set ->
       len prompt + 2 <= fst span -> fst span <= snd span ->
       snd span < len offset_map)) /\
  (forall span i,
      In span (filter (kept prompt) span_set) ->
      In i (py_range (fst span) (snd span + 1)) ->
      len prompt + 2 <= i) /\
  (forall span,
      len prompt + 2 <= fst span -> snd span < fst span ->
      decode_spans prompt content offset_map [span] = Ok [[]]).
Proof.
  assert (Hnonneg : 0 <= len prompt) by (unfold len; lia).
  split; [|split].
  - unfold decode_spans. rewrite decode_span_loop.
    assert (Hiff :
              (exists out,
                  (let? texts :=
                     rmapM (span_text (prompt ++ content) offset_map)
                           (filter (kept prompt) span_set) in
                   Ok ([] ++ texts)) = Ok out) <->
              (exists texts,
                  rmapM (span_text (prompt ++ content) offset_map)
                        (filter (kept prompt) span_set) = Ok texts)).
    { destruct (rmapM _ _) as [texts|e]; simpl.
      - split; intros _; eexists; reflexivity.
      - split; intros [x Hx]; discriminate. }
    rewrite Hiff, rmapM_ok_iff. split.
    + intros H span Hin Hkept Hle.
      apply (span_text_ok_iff (prompt ++ content) offset_map span);
        [lia | | exact Hle].
      apply H. apply filter_In. split; [exact Hin|].
      unfold kept. apply Z.leb_le. exact Hkept.
    + intros H span Hin. apply filter_In in Hin. destruct Hin as [Hin Hkept].
      unfold kept in Hkept. apply Z.leb_le in Hkept.
      apply span_text_ok_iff; [lia|].
      intros Hle. apply H; assumption.
  - intros span i Hin Hi. apply filter_In in Hin. destruct Hin as [_ Hkept].
    unfold kept in Hkept. apply Z.leb_le in Hkept.
    apply py_range_In in Hi. lia.
  - intros span Hkept Hempty. unfold decode_spans. simpl.
    unfold decode_span.
    destruct (Z.ltb_spec (fst span) (len prompt + 2)); [lia|].
    unfold span_text. rewrite py_range_nil by lia. reflexivity.
Qed.

Lemma decoder_succeeds_iff_spans_end_in_table_witness :
  (exists out,
      decode_spans (str "abc") (str "defgh")
                   (Toy.row_offsets 11 (str "abc") (str "defgh"))
                   [(2, 40); (5, 7); (9, 8)] = Ok out) /\
  decode_spans (str "abc") (str "defgh")
               (Toy.row_offsets 11 (str "abc") (str "defgh")) [(9, 8)] =
  Ok [[]].
Proof.
  destruct (decoder_succeeds_iff_spans_end_in_table (str "abc") (str "defgh")
              (Toy.row_offsets 11 (str "abc") (str "defgh"))
              [(2, 40); (5, 7); (9, 8)]) as [[_ Hok] [_ Hempty]].
  split.
  - apply Hok. intros span [<- | [<- | [<- | []]]]; vm_compute; intros H1 H2;
      try reflexivity; exfalso; (apply H1 || apply H2); reflexivity.
  - apply (Hempty (9, 8)); vm_compute; [discriminate | reflexivity].
Defined.

Lemma span_text_of_entries (text : pystr) (om : list (Z * Z)) (s e : Z)
  (entries : list (Z * Z)) :
  Forall2 (fun i entry => py_index om i = Ok entry)
          (py_range s (e + 1)) entries ->
  span_text text om (s, e) = Ok (concat (map (slice_of text) entries)).
Proof.
  intros H. unfold span_text. simpl fst. simpl snd.
  rewrite span_text_loop. apply rmapM_Forall2 in H. rewrite H. reflexivity.
Qed.

Lemma slice_of_blank (text : pystr) (entry : Z * Z) :
  blank entry = true -> slice_of text entry = [].
Proof.
  unfold blank. intros H. apply andb_true_iff in H.
  destruct H as [Ha Hb]. apply Z.eqb_eq in Ha, Hb.
  unfold slice_of. rewrite Ha, Hb. apply py_slice_empty.
Qed.

Lemma concat_without_blanks (text : pystr) (entries : list (Z * Z)) :
  concat (map (slice_of text) entries) =
  concat (map (slice_of text)
              (filter (fun entry => negb (blank entry)) entries)).
Proof.
  induction entries as [|entry entries IH]; simpl; [reflexivity|].
  destruct (blank entry) eqn:Hb; simpl.
  - rewrite slice_of_blank by exact Hb. exact IH.
  - rewrite IH. reflexivity.
Qed.

(** X2.  Tokens whose offset entry is (0, 0), the special and padding
    tokens, add nothing to the text of a span: the text is the
    concatenation of the slices of the other entries alone. *)
Theorem blank_entries_add_no_text (text : pystr)
  (offset_map : list (Z * Z)) (s e : Z) (entries : list (Z * Z)) :
  Forall2 (fun i entry => py_index offset_map i = Ok entry)
          (py_range s (e + 1)) entries ->
  span_text text offset_map (s, e) =
  Ok (concat (map (slice_of text)
                  (filter (fun entry => negb (blank entry)) entries))).
Proof.
  intros H. rewrite (span_text_of_entries _ _ _ _ _ H).
  rewrite concat_without_blanks. reflexivity.
Qed.

Lemma blank_entries_add_no_text_witness :
  span_text (str "abcdefgh")
            (Toy.row_offsets 12 (str "abc") (str "defgh")) (3, 6) =
  Ok (concat (map (slice_of (str "abcdefgh")) [(2, 3); (3, 4); (4, 5)])).
Proof.
  apply (blank_entries_add_no_text (str "abcdefgh")
           (Toy.row_offsets 12 (str "abc") (str "defgh")) 3 6
           [(2, 3); (0, 0); (3, 4); (4, 5)]).
  repeat constructor.
Defined.

Lemma chained_le (start stop : Z) (entries : list (Z * Z)) :
  chained start entries stop -> start <= stop.
Proof.
  revert start. induction entries as [|entry entries IH]; simpl; intros start.
  - lia.
  - intros [_ [Hle Hrest]]. apply IH in Hrest. lia.
Qed.

Lemma concat_chained (text : pystr) (entries : list (Z * Z)) :
  forall start stop,
    0 <= start -> stop <= len text ->
    chained start entries stop ->
    concat (map (slice_of text) entries) = py_slice text start stop.
Proof.
  induction entries as [|entry entries IH]; simpl; intros start stop Hs He.
  - intros <-. rewrite py_slice_empty. reflexivity.
  - intros [Hfst [Hle Hrest]].
    pose proof (chained_le _ _ _ Hrest) as Hle'.
    rewrite (IH (snd entry) stop) by (lia || assumption).
    unfold slice_of. rewrite Hfst. apply py_slice_app; lia.
Qed.

(** X3.  When the offset entries of the tokens of a span follow one
    another without a gap inside the text, from character [a] to
    character [b], the span decodes to the slice of the text from [a] to
    [b]: cutting the text token by token and joining the pieces gives
    back the substring that the span covers. *)
Theorem chained_offsets_decode_to_slice (text : pystr)
  (offset_map : list (Z * Z)) (s e a b : Z) (entries : list (Z * Z)) :
  Forall2 (fun i entry => py_index offset_map i = Ok entry)
          (py_range s (e + 1)) entries ->
  0 <= a -> b <= len text ->
  chained a entries b ->
  span_text text offset_map (s, e) = Ok (py_slice text a b).
Proof.
  intros H Ha Hb Hchain. rewrite (span_text_of_entries _ _ _ _ _ H).
  rewrite (concat_chained text entries a b) by assumption.
  reflexivity.
Qed.

Lemma chained_offsets_decode_to_slice_witness :
  span_text (str "unhappily") [(0, 0); (0, 2); (2, 7); (7, 9); (0, 0)] (1, 3) =
  Ok (py_slice (str "unhappily") 0 9).
Proof.
  apply (chained_offsets_decode_to_slice (str "unhappily")
           [(0, 0); (0, 2); (2, 7); (7, 9); (0, 0)] 1 3 0 9
           [(0, 2); (2, 7); (7, 9)]).
  - repeat constructor.
  - lia.
  - vm_compute. discriminate.
  - simpl. repeat split; lia.
Defined.

Lemma In_firstn {A} (n : nat) (l : list A) (x : A) :
  In x (firstn n l) -> In x l.
Proof.
  intros H. rewrite <- (firstn_skipn n l). apply in_or_app. left. exact H.
Qed.

Lemma In_skipn {A} (n : nat) (l : list A) (x : A) :
  In x (skipn n l) -> In x l.
Proof.
  intros H. rewrite <- (firstn_skipn n l). apply in_or_app. right. exact H.
Qed.

Lemma In_py_slice {A} (s : list A) (a b : Z) (x : A) :
  In x (py_slice s a b) -> In x s.
Proof.
  unfold py_slice. intros H. apply In_firstn in H. apply In_skipn in H.
  exact H.
Qed.

Lemma span_text_chars (text : pystr) (om : list (Z * Z)) (span : Z * Z)
  (t : pystr) :
  span_text text om span = Ok t -> forall c, In c t -> In c text.
Proof.
  unfold span_text. rewrite span_text_loop.
  destruct (rmapM _ _) as [entries|e]; simpl; [|discriminate].
  intros H. injection H as <-. intros c Hc.
  apply in_concat in Hc. destruct Hc as [piece [Hpiece Hc]].
  apply in_map_iff in Hpiece. destruct Hpiece as [entry [<- _]].
  eapply In_py_slice. exact Hc.
Qed.

(** X4.  Every string that the decoder returns is made of characters
    of [prompt + content] only: the decoder copies text and never
    produces a character that the input does not hold. *)
Theorem decoded_strings_use_input_characters (prompt content : pystr)
  (offset_map : list (Z * Z)) (span_set : list (Z * Z))
  (out : list pystr) :
  decode_spans prompt content offset_map span_set = Ok out ->
  forall t c, In t out -> In c t -> In c (prompt ++ content).
Proof.
  unfold decode_spans. rewrite decode_span_loop.
  destruct (rmapM _ _) as [texts|e] eqn:Hm; simpl; [|discriminate].
  intros H. injection H as <-. intros t c Ht Hc.
  apply rmapM_Forall2 in Hm.
  assert (Hsrc : exists span,
             span_text (prompt ++ content) offset_map span = Ok t).
  { clear Hc. induction Hm as [|span t' spans texts' Hs Hrest IH];
      [destruct Ht|].
    destruct Ht as [-> | Ht]; [exists span; exact Hs | apply IH; exact Ht]. }
  destruct Hsrc as [span Hspan].
  eapply span_text_chars; eassumption.
Qed.

Lemma decoded_strings_use_input_characters_witness :
  In 102 (str "abc" ++ str "defgh").
Proof.
  apply (decoded_strings_use_input_characters (str "abc") (str "defgh")
           (Toy.row_offsets 11 (str "abc") (str "defgh")) [(2, 4); (5, 7)]
           [str "def"] eq_refl (str "def") 102).
  - left. reflexivity.
  - right. right. left. reflexivity.
Defined.

(** ** Further properties of single-prompt inference *)

Lemma decoded_row_failure (get_span : list Z -> list Z -> list (Z * Z))
  (rows : list (list Z * list Z * pystr * pystr * list (Z * Z))) (e : exn) :
  rmapM (decoded_row get_span) rows = Err e -> e = IndexError.
Proof.
  intros H. apply rmapM_failure in H.
  destruct H as [[[[[start_ids end_ids] prompt] content] om] [_ H]].
  simpl in H. eapply decode_spans_failure. exact H.
Qed.

Lemma zip5_no_pairs {A B C D E} (la : list A) (lb : list B) (lc : list C)
  (ld : list D) (le : list E) :
  lc = [] \/ ld = [] -> zip5 la lb lc ld le = [].
Proof.
  intros [-> | ->]; destruct la, lb; try reflexivity;
    destruct lc; reflexivity.
Qed.

Lemma In_zip5 {A B C D E} (la : list A) (lb : list B) (lc : list C)
  (ld : list D) (le : list E) (a : A) (b : B) (c : C) (d : D) (e : E) :
  In (a, b, c, d, e) (zip5 la lb lc ld le) ->
  In a la /\ In b lb /\ In c lc /\ In d ld /\ In e le.
Proof.
  revert lb lc ld le. induction la as [|a0 la IH];
    intros [|b0 lb] [|c0 lc] [|d0 ld] [|e0 le]; simpl;
    try (intros H; exact (False_ind _ H)).
  intros [H | H].
  - injection H as -> -> -> -> ->. repeat split; left; reflexivity.
  - apply IH in H. destruct H as [Ha [Hb [Hc [Hd He]]]].
    repeat split; right; assumption.
Qed.

(** A failure of the decoding of a batch is the [IndexError] of a token
    index of a kept span that has no entry in the offset table of its
    row. *)
Lemma decoded_row_failure_at (get_span : list Z -> list Z -> list (Z * Z))
  (rows : list (list Z * list Z * pystr * pystr * list (Z * Z))) (e : exn) :
  rmapM (decoded_row get_span) rows = Err e ->
  e = IndexError /\
  exists start_ids end_ids prompt content offset_map span i,
    In (start_ids, end_ids, prompt, content, offset_map) rows /\
    In span (get_span start_ids end_ids) /\
    len prompt + 2 <= fst span /\
    fst span <= i <= snd span /\
    py_index offset_map i = Err IndexError.
Proof.
  intros H. apply rmapM_failure in H.
  destruct H as [[[[[start_ids end_ids] prompt] content] om] [Hrow H]].
  simpl in H. unfold decode_spans in H. rewrite decode_span_loop in H.
  destruct (rmapM _ _) as [texts|e'] eqn:Hm; simpl in H; [discriminate|].
  injection H as ->.
  apply rmapM_failure in Hm. destruct Hm as [span [Hspan Htext]].
  apply filter_In in Hspan. destruct Hspan as [Hspan Hkept].
  unfold kept in Hkept. apply Z.leb_le in Hkept.
  unfold span_text in Htext. rewrite span_text_loop in Htext.
  destruct (rmapM _ _) as [entries|e'] eqn:Hi; simpl in Htext;
    [discriminate|].
  injection Htext as ->.
  apply rmapM_failure in Hi. destruct Hi as [i [Hrange Hindex]].
  apply py_range_In in Hrange.
  pose proof (py_index_error _ _ _ Hindex) as ->.
  split; [reflexivity|].
  exists start_ids, end_ids, prompt, content, om, span, i.
  repeat split; try assumption; lia.
Qed.

Section MoreInferenceFacts.

Variable tokenizer : Type.
Variable convert_inputs :
  tokenizer -> list pystr -> list pystr -> Z -> result encoded.
Variable tensor_to : list (list Z) -> string -> result (list (list Z)).
Variable get_bool_ids_greater_than : table -> Q -> result (list (list Z)).
Variable get_span : list Z -> list Z -> list (Z * Z).

Local Abbreviation infer :=
  (inference tokenizer convert_inputs tensor_to get_bool_ids_greater_than get_span).

(** X5.  An exception of a call is the exception of a collaborator
    (the tokenizer, the move of a tensor to the device, the model, the
    binarizer), or it is the [IndexError] of looking up, in the offset
    table of a pair of the batch, a token index of a span that the
    decoder keeps: the call raises nothing else of its own.  An
    exception of the tokenizer or of the move to the device is passed on
    unchanged and the model is then never invoked; an exception of the
    model is passed on unchanged after its one invocation. *)
Theorem inference_errors_come_from_collaborators (model_ : model)
  (tok : tokenizer) (device : string) (contents prompts : list pystr)
  (max_length : Z) (prob_threshold : Q) :
  (forall e,
      outcome (infer model_ tok device contents prompts max_length
                     prob_threshold) = Err e ->
      convert_inputs tok prompts contents max_length = Err e \/
      (exists t, tensor_to t device = Err e) \/
      (exists inputs model_inputs_,
          convert_inputs tok prompts contents max_length = Ok inputs /\
          moved_inputs tensor_to device inputs = Ok model_inputs_ /\
          model_ model_inputs_ = Err e) \/
      (exists probs, get_bool_ids_greater_than probs prob_threshold = Err e) \/
      (e = IndexError /\
       exists inputs start_ids end_ids prompt content offset_map span i,
         convert_inputs tok prompts contents max_length = Ok inputs /\
         In prompt prompts /\ In content contents /\
         In offset_map (offset_mapping inputs) /\
         In span (get_span start_ids end_ids) /\
         len prompt + 2 <= fst span /\
         fst span <= i <= snd span /\
         py_index offset_map i = Err IndexError)) /\
  (forall e,
      convert_inputs tok prompts contents max_length = Err e ->
      outcome (infer model_ tok device contents prompts max_length
                     prob_threshold) = Err e /\
      invocations (trace (infer model_ tok device contents prompts
                                max_length prob_threshold)) = 0%nat) /\
  (forall inputs e,
      convert_inputs tok prompts contents max_length = Ok inputs ->
      moved_inputs tensor_to device inputs = Err e ->
      outcome (infer model_ tok device contents prompts max_length
                     prob_threshold) = Err e /\
      invocations (trace (infer model_ tok device contents prompts
                                max_length prob_threshold)) = 0%nat) /\
  (forall inputs model_inputs_ e,
      convert_inputs tok prompts contents max_length = Ok inputs ->
      moved_inputs tensor_to device inputs = Ok model_inputs_ ->
      model_ model_inputs_ = Err e ->
      outcome (infer model_ tok device contents prompts max_length
                     prob_threshold) = Err e /\
      invocations (trace (infer model_ tok device contents prompts
                                max_length prob_threshold)) = 1%nat).
Proof.
  split; [|split; [|split]].
  - intros e. rewrite inference_outcome.
    destruct (convert_inputs tok prompts contents max_length)
      as [inputs|e0] eqn:Hc; cbn [rbind].
    2: { intros H. left. congruence. }
    destruct (model_answer tensor_to model_ device inputs)
      as [[sp ep]|e0] eqn:Hm; cbn [rbind fst snd].
    2: { intros H. assert (e0 = e) by congruence. subst e0.
         apply model_answer_failure in Hm.
         destruct Hm as [Hto | [mi [Hmoved Hmodel]]].
         - right. left. exact Hto.
         - right. right. left. exists inputs, mi.
           repeat split; assumption. }
    destruct (get_bool_ids_greater_than sp prob_threshold)
      as [starts|e0] eqn:Hs; cbn [rbind].
    2: { intros H. right. right. right. left. exists sp. congruence. }
    destruct (get_bool_ids_greater_than ep prob_threshold)
      as [ends|e0] eqn:He; cbn [rbind].
    2: { intros H. right. right. right. left. exists ep. congruence. }
    intros H. right. right. right. right.
    apply decoded_row_failure_at in H.
    destruct H as [-> [start_ids [end_ids [prompt [content [om [span [i
                     [Hrow [Hspan [Hkept [Hi Hindex]]]]]]]]]]]].
    apply In_zip5 in Hrow. destruct Hrow as [_ [_ [Hp [Hcontent Hom]]]].
    split; [reflexivity|].
    exists inputs, start_ids, end_ids, prompt, content, om, span, i.
    repeat split; try assumption; lia.
  - intros e H. rewrite inference_outcome, inference_trace, H.
    split; reflexivity.
  - intros inputs e Hc Hmoved.
    rewrite inference_outcome, inference_trace, Hc. cbn [rbind].
    unfold model_answer. rewrite Hmoved. split; reflexivity.
  - intros inputs mi e Hc Hmoved Hm.
    rewrite inference_outcome, inference_trace, Hc. cbn [rbind].
    unfold model_answer. rewrite Hmoved. cbn [rbind]. rewrite Hm.
    split; reflexivity.
Qed.

(** X6.  A call with no prompts or no contents returns the empty list
    whenever the collaborators answer, whatever they answer: the loop
    over the batch has no pair to decode. *)
Theorem inference_of_empty_batch (model_ : model) (tok : tokenizer)
  (device : string) (contents prompts : list pystr) (max_length : Z)
  (prob_threshold : Q) (inputs : encoded) (output_sp output_ep : table)
  (start_ids_list end_ids_list : list (list Z)) :
  prompts = [] \/ contents = [] ->
  convert_inputs tok prompts contents max_length = Ok inputs ->
  model_answer tensor_to model_ device inputs = Ok (output_sp, output_ep) ->
  get_bool_ids_greater_than output_sp prob_threshold = Ok start_ids_list ->
  get_bool_ids_greater_than output_ep prob_threshold = Ok end_ids_list ->
  outcome (infer model_ tok device contents prompts max_length
                 prob_threshold) = Ok [].
Proof.
  intros Hempty Hc Hm Hs He.
  rewrite inference_outcome, Hc. simpl. rewrite Hm. simpl.
  rewrite Hs. simpl. rewrite He. simpl.
  rewrite zip5_no_pairs by exact Hempty. reflexivity.
Qed.

End MoreInferenceFacts.

Lemma inference_errors_come_from_collaborators_witness :
  outcome (inference unit Toy.convert_inputs Examples.unusable_device
             Modelv21_2.get_bool_ids_greater_than Modelv21_2.get_span
             Examples.one_row_model tt "cuda:3" [str "ab"] [str "x"] 8
             (1 # 2)) =
  Err (OtherError "device") /\
  invocations
    (trace (inference unit Toy.convert_inputs Examples.unusable_device
              Modelv21_2.get_bool_ids_greater_than Modelv21_2.get_span
              Examples.one_row_model tt "cuda:3" [str "ab"] [str "x"] 8
              (1 # 2))) = 0%nat.
Proof.
  destruct (inference_errors_come_from_collaborators unit Toy.convert_inputs
              Examples.unusable_device
              Modelv21_2.get_bool_ids_greater_than Modelv21_2.get_span
              Examples.one_row_model tt "cuda:3" [str "ab"] [str "x"] 8
              (1 # 2))
    as [_ [_ [Hdevice _]]].
  eapply Hdevice; reflexivity.
Defined.

Lemma inference_of_empty_batch_witness :
  outcome (inference unit Toy.convert_inputs Toy.tensor_to
             Modelv21_2.get_bool_ids_greater_than Modelv21_2.get_span
             Examples.one_row_model tt "cpu" [str "ab"] [] 8 (1 # 2)) = Ok [].
Proof.
  eapply (inference_of_empty_batch unit Toy.convert_inputs Toy.tensor_to
            Modelv21_2.get_bool_ids_greater_than Modelv21_2.get_span
            Examples.one_row_model tt "cpu" [str "ab"] [] 8 (1 # 2)).
  - left. reflexivity.
  - reflexivity.
  - reflexivity.
  - vm_compute. reflexivity.
  - vm_compute. reflexivity.
Defined.

(** ** Further properties of dictionaries and loops *)

Lemma pystr_eqb_neq (a b : pystr) : a <> b -> pystr_eqb a b = false.
Proof.
  intros H. destruct (pystr_eqb a b) eqn:E; [|reflexivity].
  apply pystr_eqb_eq in E. contradiction.
Qed.

Lemma keys_app {V} (d d' : dict V) : keys (d ++ d') = keys d ++ keys d'.
Proof. apply map_app. Qed.

Lemma dict_set_fresh {V} (d : dict V) (k : pystr) (v : V) :
  ~ In k (keys d) -> dict_set d k v = d ++ [(k, v)].
Proof.
  induction d as [|[k0 v0] d IH]; simpl; intros H; [reflexivity|].
  rewrite pystr_eqb_neq by (intros ->; apply H; left; reflexivity).
  rewrite IH by (intros Hin; apply H; right; exact Hin). reflexivity.
Qed.

Lemma In_dict_set {V} (d : dict V) (k k' : pystr) (v v' : V) :
  In (k, v) (dict_set d k' v') -> (k = k' /\ v = v') \/ In (k, v) d.
Proof.
  induction d as [|[k0 v0] d IH]; simpl.
  - intros [H | []]. injection H as <- <-. left. split; reflexivity.
  - destruct (pystr_eqb k0 k') eqn:E; simpl.
    + apply pystr_eqb_eq in E. subst k0.
      intros [H | H]; [injection H as <- <-; left; split; reflexivity|].
      right. right. exact H.
    + intros [H | H]; [right; left; exact H|].
      destruct (IH H) as [Heq | Hin]; [left; exact Heq | right; right; exact Hin].
Qed.

Lemma In_keys_dict_set {V} (d : dict V) (k a : pystr) (v : V) :
  In a (keys (dict_set d k v)) -> a = k \/ In a (keys d).
Proof.
  unfold keys. intros H. apply in_map_iff in H.
  destruct H as [[a' v'] [Ha Hin]]. simpl in Ha. subst a'.
  apply In_dict_set in Hin. destruct Hin as [[-> _] | Hin];
    [left; reflexivity|].
  right. apply in_map_iff. exists (a, v'). split; [reflexivity|exact Hin].
Qed.

Lemma In_keys_assign_all (pairs : list (pystr * list pystr)) :
  forall (d : flat_result) (a : pystr),
    In a (keys (assign_all d pairs)) ->
    In a (keys d) \/ In a (map fst pairs).
Proof.
  unfold assign_all.
  induction pairs as [|ar pairs IH]; simpl; intros d a H; [left; exact H|].
  apply IH in H. destruct H as [H | H]; [|right; right; exact H].
  apply In_keys_dict_set in H.
  destruct H as [-> | H]; [right; left; reflexivity | left; exact H].
Qed.

Lemma assign_all_combine (names : list pystr) :
  forall (res : list (list pystr)) (d : flat_result),
    NoDup names ->
    (forall k, In k names -> ~ In k (keys d)) ->
    assign_all d (combine names res) = d ++ combine names res.
Proof.
  unfold assign_all.
  induction names as [|n names IH]; intros res d Hnd Hfresh; simpl.
  - rewrite app_nil_r. reflexivity.
  - destruct res as [|r res]; simpl; [rewrite app_nil_r; reflexivity|].
    inversion Hnd as [|n' names' Hn Hnd']; subst.
    rewrite dict_set_fresh by (apply Hfresh; left; reflexivity).
    rewrite IH; [rewrite <- app_assoc; reflexivity | exact Hnd' |].
    intros k Hk. rewrite keys_app. simpl. intros Hin.
    apply in_app_or in Hin. destruct Hin as [Hin | [<- | []]].
    + apply (Hfresh k); [right; exact Hk | exact Hin].
    + contradiction.
Qed.

Lemma keys_combine {V} (names : list pystr) :
  forall res : list V,
    length res = length names -> keys (combine names res) = names.
Proof.
  unfold keys.
  induction names as [|n names IH]; intros [|r res] H; simpl in *;
    try discriminate; [reflexivity|].
  rewrite IH by congruence. reflexivity.
Qed.

Lemma fold_dict_set_fresh {V} (f : pystr -> V) (ks : list pystr) :
  forall d : dict V,
    NoDup ks ->
    (forall k, In k ks -> ~ In k (keys d)) ->
    fold_left (fun rsp key => dict_set rsp key (f key)) ks d =
    d ++ map (fun key => (key, f key)) ks.
Proof.
  induction ks as [|k ks IH]; intros d Hnd Hfresh; simpl.
  - rewrite app_nil_r. reflexivity.
  - inversion Hnd as [|k' ks' Hk Hnd']; subst.
    rewrite dict_set_fresh by (apply Hfresh; left; reflexivity).
    rewrite IH; [rewrite <- app_assoc; reflexivity | exact Hnd' |].
    intros k0 Hk0. rewrite keys_app. simpl. intros Hin.
    apply in_app_or in Hin. destruct Hin as [Hin | [<- | []]].
    + apply (Hfresh k0); [right; exact Hk0 | exact Hin].
    + contradiction.
Qed.

Lemma dict_get_map {V} (f : pystr -> V) (ks : list pystr) (key : pystr) :
  In key ks -> dict_get (map (fun k => (k, f k)) ks) key = Some (f key).
Proof.
  induction ks as [|k ks IH]; simpl; [intros []|].
  destruct (pystr_eqb k key) eqn:E.
  - apply pystr_eqb_eq in E. subst. reflexivity.
  - intros [-> | Hin]; [rewrite pystr_eqb_refl in E; discriminate|].
    apply IH. exact Hin.
Qed.


Lemma fold_left_invariant {A S} (I : S -> Prop) (step : S -> A -> S)
  (l : list A) :
  (forall s x, In x l -> I s -> I (step s x)) ->
  forall s, I s -> I (fold_left step l s).
Proof.
  induction l as [|x l IH]; simpl; intros Hstep s Hs; [exact Hs|].
  apply IH.
  - intros s' x' Hin. apply Hstep. right. exact Hin.
  - apply Hstep; [left; reflexivity | exact Hs].
Qed.

Lemma outcome_bind_ok {A B} (m : M A) (f : A -> M B) (b : B) :
  outcome (bind m f) = Ok b ->
  exists a, outcome m = Ok a /\ outcome (f a) = Ok b.
Proof.
  destruct (outcome m) as [a|e] eqn:Hm.
  - destruct (trace_bind_ok m f a Hm) as [Ho _]. rewrite Ho.
    intros H. exists a. split; [reflexivity|exact H].
  - destruct (trace_bind_err m f e Hm) as [Ho _]. rewrite Ho. discriminate.
Qed.



(** A loop that ends normally has run each of its iterations to a
    normal end. *)
Lemma for_ok {A S} (body : A -> S -> M S) (l : list A) :
  forall s s',
    outcome (for_ l body s) = Ok s' ->
    forall x, In x l -> exists s0 s1, outcome (body x s0) = Ok s1.
Proof.
  induction l as [|x l IH]; simpl; intros s s' H x' Hin; [destruct Hin|].
  apply outcome_bind_ok in H. destruct H as [s1 [Hbody Hrest]].
  destruct Hin as [<- | Hin]; [exists s, s1; exact Hbody|].
  eapply IH; eassumption.
Qed.

(** ** Further properties of the schema orchestrator *)

Section MoreOrchestratorFacts.

Variable tokenizer : Type.
Variable convert_inputs :
  tokenizer -> list pystr -> list pystr -> Z -> result encoded.
Variable tensor_to : list (list Z) -> string -> result (list (list Z)).
Variable get_bool_ids_greater_than : table -> Q -> result (list (list Z)).
Variable get_span : list Z -> list Z -> list (Z * Z).
Variable model_ : model.
Variable tok : tokenizer.
Variable device : string.
Variable sentence : pystr.
Variable schema : dict (list pystr).
Variable prob_threshold : Q.
Variable max_seq_len : Z.

Local Abbreviation infer :=
  (inference tokenizer convert_inputs tensor_to get_bool_ids_greater_than get_span
     model_ tok device).
Local Abbreviation instances' :=
  (instances tokenizer convert_inputs tensor_to get_bool_ids_greater_than get_span
     model_ tok device sentence prob_threshold).
Local Abbreviation stage_two' :=
  (stage_two tokenizer convert_inputs tensor_to get_bool_ids_greater_than get_span
     model_ tok device sentence schema prob_threshold max_seq_len).
Local Abbreviation cascade_trace' :=
  (cascade_trace tokenizer convert_inputs tensor_to get_bool_ids_greater_than get_span
     model_ tok device sentence schema prob_threshold max_seq_len).
Local Abbreviation subject_results' :=
  (subject_results tokenizer convert_inputs tensor_to get_bool_ids_greater_than
     get_span model_ tok device sentence schema prob_threshold max_seq_len).
Local Abbreviation trigger_results' :=
  (trigger_results tokenizer convert_inputs tensor_to get_bool_ids_greater_than
     get_span model_ tok device sentence schema prob_threshold max_seq_len).
Local Abbreviation information_run :=
  (information_extract_example tokenizer convert_inputs tensor_to
     get_bool_ids_greater_than get_span model_ tok device sentence schema
     prob_threshold max_seq_len).
Local Abbreviation event_run :=
  (event_extract_example tokenizer convert_inputs tensor_to
     get_bool_ids_greater_than get_span model_ tok device sentence schema
     prob_threshold max_seq_len).
Local Abbreviation ner_run :=
  (ner_example tokenizer convert_inputs tensor_to get_bool_ids_greater_than get_span
     model_ tok device sentence).
Local Abbreviation subject_loop :=
  (for_ (keys schema)
        (information_prompt_body tokenizer convert_inputs tensor_to
           get_bool_ids_greater_than get_span model_ tok device sentence
           schema prob_threshold max_seq_len)).
Local Abbreviation trigger_loop :=
  (for_ (keys schema)
        (event_prompt_body tokenizer convert_inputs tensor_to
           get_bool_ids_greater_than get_span model_ tok device sentence
           schema prob_threshold max_seq_len)).

Lemma inference_prints_nothing (contents prompts : list pystr)
  (max_length : Z) :
  printed_values (trace (infer contents prompts max_length prob_threshold)) =
  [].
Proof.
  rewrite inference_trace. simpl.
  destruct (convert_inputs _ _ _ _); [|reflexivity].
  destruct (moved_inputs _ _ _); reflexivity.
Qed.

(** A computation whose events are a beginning of events without a
    print has printed nothing. *)
Lemma runs_as_prints_nothing {A} (m : M A) (expected : list event)
  (P : A -> Prop) :
  runs_as m expected P ->
  printed_values expected = [] ->
  printed_values (trace m) = [].
Proof.
  unfold runs_as. destruct (outcome m).
  - intros [-> _] H. exact H.
  - intros [rest ->]. rewrite printed_values_app.
    intros H. apply app_eq_nil in H. apply H.
Qed.

Lemma cascade_prints_nothing :
  printed_values (flat_map cascade_trace' (keys schema)) = [].
Proof.
  rewrite printed_values_flat_map. apply flat_map_all_nil.
  intros key. apply cascade_trace_printed_values.
Qed.

Lemma runs_subject_loop_all (rsp : nested_result) :
  runs_as (subject_loop rsp) (flat_map cascade_trace' (keys schema))
    (fun rsp' =>
       rsp' =
       fold_left
         (fun rsp key =>
            fold_left
              (fun rsp instance =>
                 dict_set rsp instance
                          (assign_all [] (stage_two' key instance)))
              (instances' key) rsp)
         (keys schema) rsp).
Proof.
  apply (runs_for _ cascade_trace'
           (fun rsp key =>
              fold_left (fun rsp instance =>
                           dict_set rsp instance
                                    (assign_all [] (stage_two' key instance)))
                        (instances' key) rsp)).
  intros key rsp0 _. apply runs_subject_prompt.
Qed.

Lemma runs_trigger_loop_all (rsp : nested_result) :
  runs_as (trigger_loop rsp) (flat_map cascade_trace' (keys schema))
    (fun rsp' =>
       rsp' =
       fold_left
         (fun rsp key =>
            dict_set rsp key
              (fold_left (fun inner instance =>
                            assign_all inner (stage_two' key instance))
                         (instances' key) []))
         (keys schema) rsp).
Proof.
  apply (runs_for _ cascade_trace'
           (fun rsp key =>
              dict_set rsp key
                (fold_left (fun inner instance =>
                              assign_all inner (stage_two' key instance))
                           (instances' key) []))).
  intros key rsp0 _. apply runs_trigger_prompt.
Qed.

(** An entry point that runs a computation without prints and then
    prints its value keeps the printing discipline. *)
Lemma print_at_the_end {S A} (m : M S) (label : string) (show : S -> printed) :
  printed_values (trace m) = [] ->
  prints_last_or_never
    (s <- m ;;
     _ <- call (Print label (show s)) (Ok tt) ;;
     ret (@ReturnsNone A)).
Proof.
  intros Hquiet. split.
  - intros r H.
    destruct (outcome m) as [s|e] eqn:Hm.
    + match goal with
      | H : outcome (bind m ?f) = _ |- _ =>
          destruct (trace_bind_ok m f s Hm) as [Ho Ht]
      end.
      rewrite Ho in H. simpl in H. injection H as <-.
      split; [reflexivity|].
      exists (trace m), label, (show s). split; [|exact Hquiet].
      rewrite Ht. reflexivity.
    + match goal with
      | H : outcome (bind m ?f) = _ |- _ =>
          destruct (trace_bind_err m f e Hm) as [Ho _]
      end.
      rewrite Ho in H. discriminate.
  - intros e H.
    destruct (outcome m) as [s|e0] eqn:Hm.
    + match goal with
      | H : outcome (bind m ?f) = _ |- _ =>
          destruct (trace_bind_ok m f s Hm) as [Ho _]
      end.
      rewrite Ho in H. discriminate.
    + match goal with
      | H : outcome (bind m ?f) = _ |- _ =>
          destruct (trace_bind_err m f e0 Hm) as [_ Ht]
      end.
      rewrite Ht. exact Hquiet.
Qed.

(** X8.  Each of the three entry points prints its result exactly once,
    as the last thing it does, and only when it ends normally; it then
    hands [None] back to its caller.  A run that raises has printed
    nothing: no partial result is ever shown. *)
Theorem entry_points_print_last_or_never :
  prints_last_or_never information_run /\
  prints_last_or_never event_run /\
  (forall names, prints_last_or_never (ner_run names prob_threshold)).
Proof.
  split; [|split].
  - unfold information_extract_example.
    apply (print_at_the_end (subject_loop []) _ PNested).
    eapply runs_as_prints_nothing;
      [apply runs_subject_loop_all | apply cascade_prints_nothing].
  - unfold event_extract_example.
    apply (print_at_the_end (trigger_loop []) _ PNested).
    eapply runs_as_prints_nothing;
      [apply runs_trigger_loop_all | apply cascade_prints_nothing].
  - intros names. unfold ner_example.
    apply (print_at_the_end
             (infer (repeat sentence (length names)) names 128 prob_threshold)
             _
             (fun res =>
                PFlat (fold_left (fun rsp sr => dict_set rsp (fst sr) (snd sr))
                                 (combine names res) []))).
    apply inference_prints_nothing.
Qed.

(** X7.  For a schema without repeated names, the flat mode prints the
    mapping that pairs the names, in schema order, with the results of
    the call, the [k]-th name with the [k]-th result; when the call
    returns one result per name, the keys of the mapping are exactly the
    names of the schema, in schema order. *)
Theorem ner_example_prints_schema_mapping (names : list pystr)
  (res : list (list pystr)) :
  NoDup names ->
  outcome (infer (repeat sentence (length names)) names 128
                 prob_threshold) = Ok res ->
  printed_values (trace (ner_run names prob_threshold)) =
  [PFlat (combine names res)] /\
  (length res = length names -> keys (combine names res) = names).
Proof.
  intros Hnd Hres. split; [|apply keys_combine].
  unfold ner_example.
  match goal with
  | |- context [trace (bind ?m ?f)] =>
      destruct (trace_bind_ok m f res Hres) as [_ Ht]
  end.
  rewrite Ht, printed_values_app, inference_prints_nothing. simpl.
  pose proof (assign_all_combine names res [] Hnd) as Hassign.
  unfold assign_all in Hassign. rewrite Hassign; [reflexivity|].
  intros k _ [].
Qed.

Lemma event_run_prints :
  forall r,
    outcome event_run = Ok r ->
    printed_values (trace event_run) = [PNested trigger_results'].
Proof.
  intros r H.
  destruct (cascade_run_facts tokenizer convert_inputs tensor_to
              get_bool_ids_greater_than get_span model_ tok device sentence
              schema prob_threshold max_seq_len _ _ _
              (runs_event_extract tokenizer convert_inputs tensor_to
                 get_bool_ids_greater_than get_span model_ tok device
                 sentence schema prob_threshold max_seq_len)) as [Hok _].
  destruct (Hok r H) as [_ [_ Hprinted]]. exact Hprinted.
Qed.

Lemma information_run_prints :
  forall r,
    outcome information_run = Ok r ->
    printed_values (trace information_run) = [PNested subject_results'].
Proof.
  intros r H.
  destruct (cascade_run_facts tokenizer convert_inputs tensor_to
              get_bool_ids_greater_than get_span model_ tok device sentence
              schema prob_threshold max_seq_len _ _ _
              (runs_information_extract tokenizer convert_inputs tensor_to
                 get_bool_ids_greater_than get_span model_ tok device
                 sentence schema prob_threshold max_seq_len)) as [Hok _].
  destruct (Hok r H) as [_ [_ Hprinted]]. exact Hprinted.
Qed.

(** X9.  For a schema without repeated top-level prompts, the result
    that trigger-to-argument extraction prints has exactly the top-level
    prompts of the schema as its keys, in schema order, whatever the
    model finds; each is mapped to the entries of its instances,
    assigned one instance after the other from an empty mapping. *)
Theorem event_result_has_schema_keys :
  NoDup (keys schema) ->
  forall r,
    outcome event_run = Ok r ->
    exists rsp,
      printed_values (trace event_run) = [PNested rsp] /\
      keys rsp = keys schema /\
      forall key,
        In key (keys schema) ->
        dict_get rsp key =
        Some (fold_left (fun inner instance =>
                           assign_all inner (stage_two' key instance))
                        (instances' key) []).
Proof.
  intros Hnd r H.
  exists (map (fun key =>
                 (key,
                  fold_left (fun inner instance =>
                               assign_all inner (stage_two' key instance))
                            (instances' key) []))
              (keys schema)).
  split; [|split].
  - rewrite (event_run_prints r H). unfold trigger_results.
    rewrite (fold_dict_set_fresh
               (fun key =>
                  fold_left (fun inner instance =>
                               assign_all inner (stage_two' key instance))
                            (instances' key) [])
               (keys schema) [] Hnd); [reflexivity|].
    intros k _ [].
  - unfold keys at 1. rewrite map_map. simpl. apply map_id.
  - intros key Hin.
    apply (dict_get_map
             (fun key =>
                fold_left (fun inner instance =>
                             assign_all inner (stage_two' key instance))
                          (instances' key) [])). exact Hin.
Qed.

Lemma instances_truthy (key instance : pystr) :
  In instance (instances' key) -> truthy instance = true.
Proof.
  unfold instances. destruct (stage_one _ _ _ _ _ _ _ _ _ _);
    [|intros []].
  intros H. apply filter_In in H. apply H.
Qed.

Lemma stage_two_names (key instance a : pystr) :
  In a (map fst (stage_two' key instance)) -> In a (dependents schema key).
Proof.
  unfold stage_two. destruct (outcome _) as [res|e]; [|intros []].
  intros H. apply in_map_iff in H. destruct H as [[a' r] [<- Hin]].
  apply in_combine_l in Hin. exact Hin.
Qed.

(** X10.  Every entry of the result that subject-to-predicate
    extraction prints belongs to an instance of stage one: its key is a
    non-empty string that stage one found for a top-level prompt of the
    schema, its value holds the entries of that instance's own dependent
    batch and nothing else, and the attribute names in it are dependent
    attributes of that prompt.  In particular the empty string is never
    a key. *)
Theorem information_result_entries_are_instances :
  forall r,
    outcome information_run = Ok r ->
    exists rsp,
      printed_values (trace information_run) = [PNested rsp] /\
      forall instance inner,
        In (instance, inner) rsp ->
        truthy instance = true /\
        exists key,
          In key (keys schema) /\
          In instance (instances' key) /\
          inner = assign_all [] (stage_two' key instance) /\
          forall a, In a (keys inner) -> In a (dependents schema key).
Proof.
  intros r H. exists subject_results'.
  split; [apply (information_run_prints r H)|].
  unfold subject_results.
  apply (fold_left_invariant
           (fun rsp : nested_result =>
              forall instance inner,
                In (instance, inner) rsp ->
                truthy instance = true /\
                exists key,
                  In key (keys schema) /\
                  In instance (instances' key) /\
                  inner = assign_all [] (stage_two' key instance) /\
                  forall a, In a (keys inner) -> In a (dependents schema key)));
    [|intros instance inner []].
  intros rsp key Hkey Hrsp.
  apply (fold_left_invariant
           (fun rsp : nested_result =>
              forall instance inner,
                In (instance, inner) rsp ->
                truthy instance = true /\
                exists key,
                  In key (keys schema) /\
                  In instance (instances' key) /\
                  inner = assign_all [] (stage_two' key instance) /\
                  forall a, In a (keys inner) -> In a (dependents schema key)));
    [|exact Hrsp].
  intros rsp0 found Hfound Hrsp0 instance inner Hin.
  apply In_dict_set in Hin. destruct Hin as [[-> ->] | Hin];
    [|apply Hrsp0; exact Hin].
  split; [apply (instances_truthy key); exact Hfound|].
  exists key. repeat split; try assumption.
  intros a Ha. apply In_keys_assign_all in Ha.
  destruct Ha as [[] | Ha]. apply (stage_two_names key found). exact Ha.
Qed.






(** X12.  When the stage-one call of some top-level prompt of the
    schema returns an empty list, neither two-level entry point ends
    normally: taking the first element of that result raises, if nothing
    has raised before. *)
Theorem empty_stage_one_result_stops_the_run (key : pystr) :
  In key (keys schema) ->
  outcome (infer [sentence] [key] 128 prob_threshold) = Ok [] ->
  (exists e, outcome information_run = Err e) /\
  (exists e, outcome event_run = Err e).
Proof.
  intros Hkey Hempty. split.
  - destruct (outcome information_run) as [r|e] eqn:H;
      [|exists e; reflexivity].
    exfalso. unfold information_extract_example in H.
    apply outcome_bind_ok in H. destruct H as [rsp [H _]].
    destruct (for_ok _ _ _ _ H key Hkey) as [rsp0 [rsp1 Hbody]].
    unfold information_prompt_body in Hbody.
    apply outcome_bind_ok in Hbody. destruct Hbody as [batch [Hbatch Hbody]].
    rewrite Hempty in Hbatch. injection Hbatch as <-.
    apply outcome_bind_ok in Hbody. destruct Hbody as [subjects [Hfirst _]].
    discriminate.
  - destruct (outcome event_run) as [r|e] eqn:H; [|exists e; reflexivity].
    exfalso. unfold event_extract_example in H.
    apply outcome_bind_ok in H. destruct H as [rsp [H _]].
    destruct (for_ok _ _ _ _ H key Hkey) as [rsp0 [rsp1 Hbody]].
    unfold event_prompt_body in Hbody.
    apply outcome_bind_ok in Hbody. destruct Hbody as [batch [Hbatch Hbody]].
    rewrite Hempty in Hbatch. injection Hbatch as <-.
    apply outcome_bind_ok in Hbody. destruct Hbody as [triggers [Hfirst _]].
    discriminate.
Qed.

End MoreOrchestratorFacts.

Lemma ner_example_prints_schema_mapping_witness :
  printed_values
    (trace (Toy.ner_example (Toy.model_of Examples.wardrobe) tt "cpu"
              (str "red XL") [str "color"; str "size"] (6 # 10))) =
  [PFlat (combine [str "color"; str "size"] [[str "red"]; [str "XL"]])] /\
  keys (combine [str "color"; str "size"] [[str "red"]; [str "XL"]]) =
  [str "color"; str "size"].
Proof.
  destruct (ner_example_prints_schema_mapping unit Toy.convert_inputs Toy.tensor_to
              Modelv21_2.get_bool_ids_greater_than Modelv21_2.get_span
              (Toy.model_of Examples.wardrobe) tt "cpu" (str "red XL")
              (6 # 10) [str "color"; str "size"] [[str "red"]; [str "XL"]])
    as [Hprinted Hkeys].
  - repeat constructor; simpl; intros H;
      repeat (destruct H as [H | H]; [discriminate|]); exact H.
  - vm_compute. reflexivity.
  - split; [exact Hprinted | apply Hkeys; reflexivity].
Defined.

Lemma event_result_has_schema_keys_witness :
  exists rsp,
    printed_values
      (trace (Toy.event_extract_example
                (Toy.model_of Examples.newsroom) tt "cpu" Examples.news
                Examples.news_schema (6 # 10) 64)) = [PNested rsp] /\
    keys rsp = keys Examples.news_schema.
Proof.
  destruct (event_result_has_schema_keys unit Toy.convert_inputs Toy.tensor_to
              Modelv21_2.get_bool_ids_greater_than Modelv21_2.get_span
              (Toy.model_of Examples.newsroom) tt "cpu" Examples.news
              Examples.news_schema (6 # 10) 64) with (r := @ReturnsNone nested_result)
    as [rsp [Hprinted [Hkeys _]]].
  - repeat constructor. intros [].
  - vm_compute. reflexivity.
  - exists rsp. split; assumption.
Defined.

Lemma information_result_entries_are_instances_witness :
  exists rsp,
    printed_values
      (trace (Toy.information_extract_example
                (Toy.model_of Examples.newsroom) tt "cpu" Examples.news
                Examples.news_schema (6 # 10) 64)) = [PNested rsp] /\
    forall instance inner,
      In (instance, inner) rsp -> truthy instance = true.
Proof.
  destruct (information_result_entries_are_instances unit Toy.convert_inputs Toy.tensor_to
              Modelv21_2.get_bool_ids_greater_than Modelv21_2.get_span
              (Toy.model_of Examples.newsroom) tt "cpu" Examples.news
              Examples.news_schema (6 # 10) 64 ReturnsNone)
    as [rsp [Hprinted Hentries]].
  - vm_compute. reflexivity.
  - exists rsp. split; [exact Hprinted|].
    intros instance inner Hin. apply (Hentries instance inner Hin).
Defined.


Lemma empty_stage_one_result_stops_the_run_witness :
  (exists e,
      outcome (Toy.information_extract_example Examples.silent_model tt "cpu"
                 Examples.news Examples.news_schema (6 # 10) 64) = Err e) /\
  (exists e,
      outcome (Toy.event_extract_example Examples.silent_model tt "cpu"
                 Examples.news Examples.news_schema (6 # 10) 64) = Err e).
Proof.
  apply (empty_stage_one_result_stops_the_run unit Toy.convert_inputs Toy.tensor_to
           Modelv21_2.get_bool_ids_greater_than Modelv21_2.get_span
           Examples.silent_model tt "cpu" Examples.news Examples.news_schema
           (6 # 10) 64 (str "event")).
  - left. reflexivity.
  - vm_compute. reflexivity.
Defined.
